(** * csv_to_ontology: the CSV-to-RDF populator, embedded and verified

    A shallow embedding of [src/csv_to_ontology.py] (class
    [CSVOntologyPopulator]).  The rdflib [Graph] is a finite set of triples,
    the reviewer cache a finite map keyed by the 4-tuple of reviewer
    attributes, a CSV row the dictionary [csv.DictReader] yields.  The
    methods mutate [self] and may raise, so they live in a state monad whose
    state survives an exception, exactly as the mutations of a Python object
    survive a [raise]. *)

From stdpp Require Import gmap strings list fin_maps fin_sets pretty.

Open Scope string_scope.
Open Scope list_scope.

(** ** RDF terms *)

(** [datetime.date]. *)
Record date := Date { year : nat; month : nat; day : nat }.

(** The Python values the script wraps in a [Literal]: a [str] taken from
    the row, or the [date] object. *)
Inductive PyValue :=
  | PyStr (s : string)
  | PyDate (d : date).

(** rdflib terms: [URIRef(iri)] and [Literal(value, datatype=...)]. *)
Inductive Node :=
  | URIRef (iri : string)
  | Literal (value : PyValue) (datatype : option string).

(** A triple is the Python tuple [(subject, predicate, object)]. *)
Abbreviation Triple := (Node * Node * Node)%type.

Global Instance date_eq_dec : EqDecision date.
Proof. solve_decision. Defined.
Global Instance PyValue_eq_dec : EqDecision PyValue.
Proof. solve_decision. Defined.
Global Instance Node_eq_dec : EqDecision Node.
Proof. solve_decision. Defined.

Global Instance date_countable : Countable date.
Proof.
  apply (inj_countable' (λ d, (year d, month d, day d))
                        (λ t, Date t.1.1 t.1.2 t.2)).
  by intros [].
Defined.

Global Instance PyValue_countable : Countable PyValue.
Proof.
  apply (inj_countable'
           (λ v, match v with PyStr s => inl s | PyDate d => inr d end)
           (λ x, match x with inl s => PyStr s | inr d => PyDate d end)).
  by intros [].
Defined.

Global Instance Node_countable : Countable Node.
Proof.
  apply (inj_countable'
           (λ n, match n with
                 | URIRef i => inl i
                 | Literal v dt => inr (v, dt)
                 end)
           (λ x, match x with
                 | inl i => URIRef i
                 | inr (v, dt) => Literal v dt
                 end)).
  by intros [].
Defined.

(** ** Namespaces *)

(** [Namespace(base)[name]] and [Namespace(base).name]: the base IRI with
    the local name appended. *)
Definition Namespace (base name : string) : Node := URIRef (base +:+ name).

Definition SW : string → Node :=
  Namespace "http://www.example.org/software-review#".
Definition RDF : string → Node :=
  Namespace "http://www.w3.org/1999/02/22-rdf-syntax-ns#".
Definition RDFS : string → Node :=
  Namespace "http://www.w3.org/2000/01/rdf-schema#".
Definition OWL : string → Node :=
  Namespace "http://www.w3.org/2002/07/owl#".
Definition XSD_base : string := "http://www.w3.org/2001/XMLSchema#".
Definition XSD : string → Node := Namespace XSD_base.

(** ** The populator object *)

Abbreviation ReviewerKey := (string * string * string * string)%type.

Record Populator := mkPopulator {
  graph : gset Triple;
  reviewer_cache : gmap ReviewerKey Node
}.

(** A row of [csv.DictReader]: column name to cell text. *)
Abbreviation Row := (gmap string string).

(** ** Exceptions and the method monad *)

Inductive Exception :=
  | KeyError (key : string)
  | ValueError.

(** A method body: it receives [self], returns the mutated [self] and either
    the exception it raised or its result. *)
Definition M (A : Type) : Type := Populator → Populator * (Exception + A).

Global Instance M_ret : MRet M := λ A a self, (self, inr a).
Global Instance M_bind : MBind M := λ A B k m self,
  match m self with
  | (self', inl e) => (self', inl e)
  | (self', inr a) => k a self'
  end.

Definition raise {A} (e : Exception) : M A := λ self, (self, inl e).

(** [try: body except ...: handler]; the handler re-raises what it does not
    catch. *)
Definition try_except {A} (body : M A) (handler : Exception → M A) : M A :=
  λ self,
    match body self with
    | (self', inl e) => handler e self'
    | r => r
    end.

(** [self.graph.add(t)]. *)
Definition graph_add (t : Triple) : M () := λ self,
  (mkPopulator (graph self ∪ {[t]}) (reviewer_cache self), inr ()).

(** [t in self.graph]. *)
Definition graph_contains (t : Triple) : M bool := λ self,
  (self, inr (bool_decide (t ∈ graph self))).

(** [self.reviewer_cache], read. *)
Definition get_reviewer_cache : M (gmap ReviewerKey Node) := λ self,
  (self, inr (reviewer_cache self)).

(** [self.reviewer_cache[key] = uri]. *)
Definition reviewer_cache_set (key : ReviewerKey) (uri : Node) : M () :=
  λ self, (mkPopulator (graph self) (<[key := uri]> (reviewer_cache self)), inr ()).

(** [row[key]]: raises [KeyError] when the column is absent. *)
Definition getitem (row : Row) (key : string) : M string :=
  match row !! key with
  | Some v => mret v
  | None => raise (KeyError key)
  end.

(** Truthiness of [row.get(key)]: present and not the empty string. *)
Definition truthy (o : option string) : bool :=
  match o with
  | Some s => negb (String.eqb s "")
  | None => false
  end.

(** [row.get(key, default)]. *)
Definition get (row : Row) (key default : string) : string :=
  match row !! key with
  | Some v => v
  | None => default
  end.

(** [for x in xs: body(x)]. *)
Fixpoint for_each {A} (xs : list A) (body : A → M ()) : M () :=
  match xs with
  | [] => mret ()
  | x :: rest => body x;; for_each rest body
  end.

(** Literals as the script builds them: [Literal(s)] for a cell text and
    [Literal(d, datatype=XSD.date)] for the evaluation date. *)
Definition Lit (s : string) : Node := Literal (PyStr s) None.
Definition DateLit (d : date) : Node :=
  Literal (PyDate d) (Some (XSD_base +:+ "date")).

(** ** Schema initialisation *)

Definition classes : list Node := [SW "Software"; SW "Review"; SW "Reviewer"].

Definition obj_properties : list (Node * Node * Node) :=
  [ (SW "hasReview", SW "Software", SW "Review");
    (SW "madeBy", SW "Review", SW "Reviewer") ].

Definition dt_properties : list (Node * Node * Node) :=
  [ (SW "software_id", SW "Software", XSD "string");
    (SW "name", SW "Software", XSD "string");
    (SW "pagina", SW "Software", XSD "string");
    (SW "fonte", SW "Review", XSD "string");
    (SW "recomendacao", SW "Review", XSD "string");
    (SW "data_avaliacao", SW "Review", XSD "date");
    (SW "comentario", SW "Review", XSD "string");
    (SW "vantagem", SW "Review", XSD "string");
    (SW "desvantagem", SW "Review", XSD "string");
    (SW "sft_anterior", SW "Review", XSD "string");
    (SW "motivo_mudanca", SW "Review", XSD "string");
    (SW "setor", SW "Reviewer", XSD "string");
    (SW "porte", SW "Reviewer", XSD "string");
    (SW "frequencia", SW "Reviewer", XSD "string");
    (SW "frequencia_complementar", SW "Reviewer", XSD "string") ].

Definition _initialize_ontology : M () :=
  for_each classes (λ cls,
    graph_add (cls, RDF "type", OWL "Class"));;
  for_each obj_properties (λ '(prop, domain, range_),
    graph_add (prop, RDF "type", OWL "ObjectProperty");;
    graph_add (prop, RDFS "domain", domain);;
    graph_add (prop, RDFS "range", range_));;
  for_each dt_properties (λ '(prop, domain, dtype),
    graph_add (prop, RDF "type", OWL "DatatypeProperty");;
    graph_add (prop, RDFS "domain", domain);;
    graph_add (prop, RDFS "range", dtype)).

(** [CSVOntologyPopulator()]: an empty graph, the schema, an empty cache. *)
Definition __init__ : Populator :=
  let self := mkPopulator ∅ ∅ in
  let self := (_initialize_ontology self).1 in
  mkPopulator (graph self) ∅.

(** ** Entity resolvers *)

Definition _get_or_create_reviewer
    (setor porte frequencia frequencia_complementar : string) : M Node :=
  let reviewer_key := (setor, porte, frequencia, frequencia_complementar) in
  cache ← get_reviewer_cache;
  match cache !! reviewer_key with
  | Some uri => mret uri
  | None =>
      let reviewer_id := "reviewer_" +:+ pretty (size cache + 1) in
      let reviewer_uri := SW reviewer_id in
      graph_add (reviewer_uri, RDF "type", SW "Reviewer");;
      graph_add (reviewer_uri, SW "setor", Lit setor);;
      graph_add (reviewer_uri, SW "porte", Lit porte);;
      graph_add (reviewer_uri, SW "frequencia", Lit frequencia);;
      graph_add (reviewer_uri, SW "frequencia_complementar",
                 Lit frequencia_complementar);;
      reviewer_cache_set reviewer_key reviewer_uri;;
      mret reviewer_uri
  end.

Definition _get_or_create_software
    (software_id name : string) (pagina : option string) : M Node :=
  let software_uri := SW ("software_" +:+ software_id) in
  present ← graph_contains (software_uri, RDF "type", SW "Software");
  (if negb present then
     graph_add (software_uri, RDF "type", SW "Software");;
     graph_add (software_uri, SW "software_id", Lit software_id);;
     graph_add (software_uri, SW "name", Lit name);;
     (if truthy pagina then
        graph_add (software_uri, SW "pagina", Lit (default "" pagina))
      else mret ())
   else mret ());;
  mret software_uri.

(** ** Row ingestion *)

(** What the loop prints for a row it skips. *)
Inductive Line :=
  | MissingColumn (row_num : nat) (e : Exception)
  | ErrorProcessing (row_num : nat) (e : Exception).

Section Ingestion.

(** [datetime.strptime(s, '%Y-%m-%d').date()] is the library's: [None]
    stands for its [ValueError]. *)
Variable strptime : string → option date.

(** [datetime.now().date()] when row [row_num] is being processed. *)
Variable now : nat → date.

Definition strptime_date (s : string) : M date :=
  match strptime s with
  | Some d => mret d
  | None => raise ValueError
  end.

(** The body of the [try] inside the loop of [process_csv]. *)
Definition process_row (row_num : nat) (row : Row) : M () :=
  software_id ← getitem row "software_id";
  default_id ← getitem row "software_id";
  let name := get row "name" ("Software " +:+ default_id) in
  let pagina := row !! "pagina" in
  software_uri ← _get_or_create_software software_id name pagina;
  setor ← getitem row "setor";
  porte ← getitem row "porte";
  frequencia ← getitem row "frequencia";
  frequencia_complementar ← getitem row "frequencia_complementar";
  reviewer_uri ← _get_or_create_reviewer
                   setor porte frequencia frequencia_complementar;
  let review_id := "review_" +:+ pretty row_num in
  let review_uri := SW review_id in
  date_obj ← try_except
               (s ← getitem row "data_avaliacao"; strptime_date s)
               (λ e, match e with
                     | ValueError => mret (now row_num)
                     | _ => raise e
                     end);
  graph_add (review_uri, RDF "type", SW "Review");;
  fonte ← getitem row "fonte";
  graph_add (review_uri, SW "fonte", Lit fonte);;
  recomendacao ← getitem row "recomendacao";
  graph_add (review_uri, SW "recomendacao", Lit recomendacao);;
  graph_add (review_uri, SW "data_avaliacao", DateLit date_obj);;
  comentario ← getitem row "comentario";
  graph_add (review_uri, SW "comentario", Lit comentario);;
  vantagem ← getitem row "vantagem";
  graph_add (review_uri, SW "vantagem", Lit vantagem);;
  desvantagem ← getitem row "desvantagem";
  graph_add (review_uri, SW "desvantagem", Lit desvantagem);;
  (if truthy (row !! "sft_anterior") then
     sft_anterior ← getitem row "sft_anterior";
     graph_add (review_uri, SW "sft_anterior", Lit sft_anterior)
   else mret ());;
  (if truthy (row !! "motivo_mudanca") then
     motivo_mudanca ← getitem row "motivo_mudanca";
     graph_add (review_uri, SW "motivo_mudanca", Lit motivo_mudanca)
   else mret ());;
  graph_add (software_uri, SW "hasReview", review_uri);;
  graph_add (review_uri, SW "madeBy", reviewer_uri).

(** The two [except] clauses of the loop: report and [continue]. *)
Definition report (row_num : nat) (r : Exception + ()) : list Line :=
  match r with
  | inl (KeyError k) => [MissingColumn row_num (KeyError k)]
  | inl e => [ErrorProcessing row_num e]
  | inr _ => []
  end.

(** [for row_num, row in enumerate(reader, start=row_num)]. *)
Fixpoint process_rows (row_num : nat) (rows : list Row) (self : Populator)
    : Populator * list Line :=
  match rows with
  | [] => (self, [])
  | row :: rest =>
      let '(self1, r) := process_row row_num row self in
      let '(self2, out) := process_rows (S row_num) rest self1 in
      (self2, report row_num r ++ out)
  end.

Definition process_csv (rows : list Row) (self : Populator)
    : Populator * list Line :=
  process_rows 1 rows self.

(** The script's main: construct, then process the file. *)
Definition run (rows : list Row) : Populator * list Line :=
  process_csv rows __init__.

End Ingestion.

(** ** Statistics *)

(** [graph.subjects(predicate, object)]. *)
Definition subjects (g : gset Triple) (p o : Node) : list Node :=
  (λ t : Triple, t.1.1) <$> elements (filter (λ t : Triple, t.1.2 = p ∧ t.2 = o) g).

Definition software_count (self : Populator) : nat :=
  length (subjects (graph self) (RDF "type") (SW "Software")).
Definition review_count (self : Populator) : nat :=
  length (subjects (graph self) (RDF "type") (SW "Review")).
Definition reviewer_count (self : Populator) : nat :=
  length (subjects (graph self) (RDF "type") (SW "Reviewer")).

Definition print_statistics (self : Populator) : nat * nat * nat :=
  (software_count self, review_count self, reviewer_count self).


(** ** Specification vocabulary *)

(** The identifiers the script mints. *)
Abbreviation software_uri id := (SW ("software_" +:+ id)).
Abbreviation reviewer_uri k := (SW ("reviewer_" +:+ pretty (k : nat))).
Abbreviation review_uri n := (SW ("review_" +:+ pretty (n : nat))).

Definition subject (t : Triple) : Node := t.1.1.
Definition predicate (t : Triple) : Node := t.1.2.
Definition object (t : Triple) : Node := t.2.

(** The declarations [_initialize_ontology] writes, as a list. *)
Definition schema_triples : list Triple :=
  ((λ cls, (cls, RDF "type", OWL "Class")) <$> classes) ++
  (obj_properties ≫= λ '(prop, domain, range_),
     [ (prop, RDF "type", OWL "ObjectProperty");
       (prop, RDFS "domain", domain);
       (prop, RDFS "range", range_) ]) ++
  (dt_properties ≫= λ '(prop, domain, dtype),
     [ (prop, RDF "type", OWL "DatatypeProperty");
       (prop, RDFS "domain", domain);
       (prop, RDFS "range", dtype) ]).

(** A triple is a schema declaration when it types its subject as an OWL
    class or property, or gives a domain or a range. *)
Definition is_schema (t : Triple) : bool :=
  bool_decide (predicate t = RDF "type" ∧
               object t ∈ [OWL "Class"; OWL "ObjectProperty"; OWL "DatatypeProperty"])
  || bool_decide (predicate t ∈ [RDFS "domain"; RDFS "range"]).

(** The identifiers of reviews: those under [SW] that start with
    [review_]. *)
Definition is_review_uri (x : Node) : bool :=
  match x with
  | URIRef iri =>
      String.prefix "http://www.example.org/software-review#review_" iri
  | Literal _ _ => false
  end.

(** The row a printed line is about. *)
Definition line_row (l : Line) : nat :=
  match l with
  | MissingColumn row_num _ => row_num
  | ErrorProcessing row_num _ => row_num
  end.

(** The software ids a file mentions. *)
Definition software_ids (rows : list Row) : gset string :=
  list_to_set (omap (λ row : Row, row !! "software_id") rows).

(** A populator as the constructor leaves it: the schema and nothing else. *)
Definition initialised (self : Populator) : Prop :=
  graph self = list_to_set schema_triples ∧ reviewer_cache self = ∅.

(** What [_get_or_create_software] writes for a software it creates. *)
Definition software_triples (software_id name : string) (pagina : option string)
    : gset Triple :=
  {[ (software_uri software_id, RDF "type", SW "Software") ]} ∪
  {[ (software_uri software_id, SW "software_id", Lit software_id) ]} ∪
  {[ (software_uri software_id, SW "name", Lit name) ]} ∪
  (if truthy pagina
   then {[ (software_uri software_id, SW "pagina", Lit (default "" pagina)) ]}
   else ∅).

Definition software_delta (g : gset Triple)
    (software_id name : string) (pagina : option string) : gset Triple :=
  if decide ((software_uri software_id, RDF "type", SW "Software") ∈ g)
  then ∅ else software_triples software_id name pagina.

(** What [_get_or_create_reviewer] writes for a reviewer it creates. *)
Definition reviewer_triples (uri : Node) (key : ReviewerKey) : gset Triple :=
  {[ (uri, RDF "type", SW "Reviewer") ]} ∪
  {[ (uri, SW "setor", Lit key.1.1.1) ]} ∪
  {[ (uri, SW "porte", Lit key.1.1.2) ]} ∪
  {[ (uri, SW "frequencia", Lit key.1.2) ]} ∪
  {[ (uri, SW "frequencia_complementar", Lit key.2) ]}.

(** The reviewer a key resolves to, and the cache and graph afterwards. *)
Definition reviewer_of (cache : gmap ReviewerKey Node) (key : ReviewerKey) : Node :=
  match cache !! key with
  | Some uri => uri
  | None => reviewer_uri (size cache + 1)
  end.

Definition reviewer_delta (cache : gmap ReviewerKey Node) (key : ReviewerKey)
    : gset Triple :=
  match cache !! key with
  | Some _ => ∅
  | None => reviewer_triples (reviewer_uri (size cache + 1)) key
  end.

Definition cache_after (cache : gmap ReviewerKey Node) (key : ReviewerKey)
    : gmap ReviewerKey Node :=
  match cache !! key with
  | Some _ => cache
  | None => <[key := reviewer_uri (size cache + 1)]> cache
  end.

(** The reviewer key of a row, when its four columns are there. *)
Definition reviewer_key (row : Row) : option ReviewerKey :=
  setor ← row !! "setor";
  porte ← row !! "porte";
  frequencia ← row !! "frequencia";
  frequencia_complementar ← row !! "frequencia_complementar";
  Some (setor, porte, frequencia, frequencia_complementar).

(** The name a row gives its software. *)
Definition name_of (row : Row) (software_id : string) : string :=
  get row "name" ("Software " +:+ software_id).

(** An optional review attribute: written when the cell is non-empty. *)
Definition optional_triple (review : Node) (row : Row) (column : string)
    : gset Triple :=
  match row !! column with
  | Some v => if negb (String.eqb v "") then {[ (review, SW column, Lit v) ]} else ∅
  | None => ∅
  end.

(** The columns a row must have, in the order the loop body reads them. *)
Definition required : list string :=
  [ "software_id"; "setor"; "porte"; "frequencia"; "frequencia_complementar";
    "data_avaliacao"; "fonte"; "recomendacao"; "comentario"; "vantagem";
    "desvantagem" ].

(** The first required column a row lacks. *)
Definition first_missing (row : Row) : option string :=
  head (filter (λ k, row !! k = None) required).

(** A row is complete when it has every required column; it reaches the
    review when it has the six columns read before the Review is typed. *)
Definition complete (row : Row) : Prop :=
  Forall (λ k, is_Some (row !! k)) required.
Definition reaches_review (row : Row) : Prop :=
  Forall (λ k, is_Some (row !! k)) (take 6 required).
Definition reaches_reviewer (row : Row) : Prop :=
  Forall (λ k, is_Some (row !! k)) (take 5 required).

Global Instance complete_dec (row : Row) : Decision (complete row).
Proof. unfold complete. apply _. Defined.
Global Instance reaches_review_dec (row : Row) : Decision (reaches_review row).
Proof. unfold reaches_review. apply _. Defined.

(** The reviewer keys of the rows that get as far as resolving their
    reviewer. *)
Definition resolved_key (row : Row) : option ReviewerKey :=
  match row !! "software_id" with
  | Some _ => reviewer_key row
  | None => None
  end.

Definition reviewer_keys (rows : list Row) : gset ReviewerKey :=
  list_to_set (omap resolved_key rows).

Section IngestionSpec.

Variable strptime : string → option date.
Variable now : nat → date.

(** The date the review of row [row_num] gets from the cell [s]. *)
Definition date_of (row_num : nat) (s : string) : date :=
  match strptime s with
  | Some d => d
  | None => now row_num
  end.

(** The triples the review part of the loop body writes, up to the first
    column it finds missing. *)
Definition review_delta (row_num : nat) (row : Row)
    (software reviewer : Node) (s : string) : gset Triple :=
  let review := review_uri row_num in
  {[ (review, RDF "type", SW "Review") ]} ∪
  match row !! "fonte" with
  | None => ∅
  | Some fonte =>
  {[ (review, SW "fonte", Lit fonte) ]} ∪
  match row !! "recomendacao" with
  | None => ∅
  | Some recomendacao =>
  {[ (review, SW "recomendacao", Lit recomendacao) ]} ∪
  {[ (review, SW "data_avaliacao", DateLit (date_of row_num s)) ]} ∪
  match row !! "comentario" with
  | None => ∅
  | Some comentario =>
  {[ (review, SW "comentario", Lit comentario) ]} ∪
  match row !! "vantagem" with
  | None => ∅
  | Some vantagem =>
  {[ (review, SW "vantagem", Lit vantagem) ]} ∪
  match row !! "desvantagem" with
  | None => ∅
  | Some desvantagem =>
  {[ (review, SW "desvantagem", Lit desvantagem) ]} ∪
  optional_triple review row "sft_anterior" ∪
  optional_triple review row "motivo_mudanca" ∪
  {[ (software, SW "hasReview", review) ]} ∪
  {[ (review, SW "madeBy", reviewer) ]}
  end end end end end.

(** Everything one pass of the loop body writes to the graph. *)
Definition row_delta (self : Populator) (row_num : nat) (row : Row)
    : gset Triple :=
  match row !! "software_id" with
  | None => ∅
  | Some software_id =>
  software_delta (graph self) software_id
    (name_of row software_id) (row !! "pagina") ∪
  match reviewer_key row with
  | None => ∅
  | Some key =>
  reviewer_delta (reviewer_cache self) key ∪
  match row !! "data_avaliacao" with
  | None => ∅
  | Some s =>
  review_delta row_num row (software_uri software_id)
    (reviewer_of (reviewer_cache self) key) s
  end end end.

(** The cache after one pass of the loop body. *)
Definition row_cache (self : Populator) (row : Row) : gmap ReviewerKey Node :=
  match row !! "software_id", reviewer_key row with
  | Some _, Some key => cache_after (reviewer_cache self) key
  | _, _ => reviewer_cache self
  end.

(** How one pass of the loop body ends. *)
Definition row_result (row : Row) : Exception + () :=
  match first_missing row with
  | Some k => inl (KeyError k)
  | None => inr ()
  end.

End IngestionSpec.

(** ** Example inputs *)

(** A date parser to run the examples with: four digits, a dash, two digits,
    a dash, two digits, naming a day of the calendar.  It stands for
    [strptime] in the examples only; the theorems hold for any parser. *)
Definition digit (c : Ascii.ascii) : option nat :=
  let n := Ascii.nat_of_ascii c in
  if ((48 <=? n) && (n <=? 57))%nat then Some (n - 48) else None.

Fixpoint number (acc : nat) (cs : list Ascii.ascii) : option nat :=
  match cs with
  | [] => Some acc
  | c :: rest => d ← digit c; number (10 * acc + d) rest
  end.

Definition leap_year (y : nat) : bool :=
  (((y mod 4 =? 0) && negb (y mod 100 =? 0)) || (y mod 400 =? 0))%nat.

Definition days_in_month (y m : nat) : nat :=
  match m with
  | 1 | 3 | 5 | 7 | 8 | 10 | 12 => 31
  | 4 | 6 | 9 | 11 => 30
  | 2 => if leap_year y then 29 else 28
  | _ => 0
  end.

Definition strptime_ymd (s : string) : option date :=
  match String.list_ascii_of_string s with
  | [y1; y2; y3; y4; dash1; m1; m2; dash2; d1; d2] =>
      if ((Ascii.nat_of_ascii dash1 =? 45) && (Ascii.nat_of_ascii dash2 =? 45))%nat
      then
        y ← number 0 [y1; y2; y3; y4];
        m ← number 0 [m1; m2];
        d ← number 0 [d1; d2];
        if ((1 <=? y) && (1 <=? d) && (d <=? days_in_month y m))%nat
        then Some (Date y m d) else None
      else None
  | _ => None
  end.

(** A clock that shows the same day for every row. *)
Definition example_now : nat → date := λ _, Date 2026 11 4.

(** A row with every column. *)
Definition review_row : Row :=
  list_to_map
    [ ("software_id", "7"); ("name", "Argus"); ("pagina", "https://argus.example");
      ("setor", "varejo"); ("porte", "medio"); ("frequencia", "diaria");
      ("frequencia_complementar", "semanal"); ("fonte", "capterra");
      ("recomendacao", "8"); ("data_avaliacao", "2024-05-17");
      ("comentario", "bom"); ("vantagem", "simples"); ("desvantagem", "caro");
      ("sft_anterior", ""); ("motivo_mudanca", "preco") ].

(** The same review of the same software, under another name. *)
Definition renamed_row : Row := <["name" := "Argos"]> review_row.

(** The same row with a date no calendar has. *)
Definition bad_date_row : Row := <["data_avaliacao" := "2024-13-40"]> review_row.

(** The same row in a file without the [fonte] column, and in one without
    the [software_id] column. *)
Definition row_without_fonte : Row := delete "fonte" review_row.

(** ** Vocabulary of the further properties *)

(** The terms the schema declares: the classes and the properties. *)
Definition schema_terms : list Node :=
  classes ++ obj_properties.*1.*1 ++ dt_properties.*1.*1.

(** What the loop prints for a row: nothing, or the first required column
    the row lacks. *)
Definition skip_line (i : nat) (row : Row) : list Line :=
  match first_missing row with
  | Some k => [MissingColumn (S i) (KeyError k)]
  | None => []
  end.

(** A literal of a range: a date typed [xsd:date] under [xsd:date], a plain
    string under [xsd:string]. *)
Definition literal_of (range_ : Node) (o : Node) : Prop :=
  match o with
  | Literal (PyStr _) dt => range_ = XSD "string" ∧ dt = None
  | Literal (PyDate _) dt => range_ = XSD "date" ∧ dt = Some (XSD_base +:+ "date")
  | URIRef _ => False
  end.

(** A data triple agrees with the schema when it types its subject with one
    of the three classes, or its predicate is a declared property, its
    subject is typed with the domain of that property, and its object is
    typed with the range (an object property) or is a literal of the range
    (a datatype property). *)
Definition conforms (g : gset Triple) (t : Triple) : Prop :=
  (predicate t = RDF "type" ∧ object t ∈ classes) ∨
  (∃ domain range_, (predicate t, domain, range_) ∈ obj_properties ∧
     (subject t, RDF "type", domain) ∈ g ∧ (object t, RDF "type", range_) ∈ g) ∨
  (∃ domain dtype, (predicate t, domain, dtype) ∈ dt_properties ∧
     (subject t, RDF "type", domain) ∈ g ∧ literal_of dtype (object t)).

(** The same review by a reviewer of another sector. *)
Definition other_sector_row : Row := <["setor" := "industria"]> review_row.

(** * Verification *)

(** ** Entity identifiers *)

(** Identifiers are a fixed prefix followed by a key: the prefix cancels. *)
Lemma string_app_inj (p a b : string) : p +:+ a = p +:+ b → a = b.
Proof. induction p as [|c p IH]; simpl; [done|]. intros [=]. auto. Qed.

Lemma Namespace_inj (base a b : string) :
  Namespace base a = Namespace base b → a = b.
Proof. unfold Namespace. intros [=]. by eapply string_app_inj. Qed.

Lemma software_uri_inj (a b : string) : software_uri a = software_uri b → a = b.
Proof. intros H%Namespace_inj. by eapply string_app_inj. Qed.

Lemma review_uri_inj (a b : nat) : review_uri a = review_uri b → a = b.
Proof. intros H%Namespace_inj%string_app_inj. by apply (inj pretty). Qed.

Lemma reviewer_uri_inj (a b : nat) : reviewer_uri a = reviewer_uri b → a = b.
Proof. intros H%Namespace_inj%string_app_inj. by apply (inj pretty). Qed.

(** Software, reviews and reviewers never share an identifier. *)
Lemma software_review_uri (id : string) (n : nat) : software_uri id ≠ review_uri n.
Proof. by intros H%Namespace_inj. Qed.

Lemma software_reviewer_uri (id : string) (k : nat) : software_uri id ≠ reviewer_uri k.
Proof. by intros H%Namespace_inj. Qed.

Lemma review_reviewer_uri (n k : nat) : review_uri n ≠ reviewer_uri k.
Proof. by intros H%Namespace_inj. Qed.

(** ** Running the method monad *)

Lemma bind_run {A B} (m : M A) (k : A → M B) (self : Populator) :
  (m ≫= k) self =
  match m self with
  | (self', inl e) => (self', inl e)
  | (self', inr a) => k a self'
  end.
Proof. reflexivity. Qed.

Lemma getitem_Some (row : Row) (k v : string) (self : Populator) :
  row !! k = Some v → getitem row k self = (self, inr v).
Proof. intros H. unfold getitem. by rewrite H. Qed.

Lemma getitem_None (row : Row) (k : string) (self : Populator) :
  row !! k = None → getitem row k self = (self, inl (KeyError k)).
Proof. intros H. unfold getitem. by rewrite H. Qed.

Lemma graph_add_run (t : Triple) (self : Populator) :
  graph_add t self = (mkPopulator (graph self ∪ {[t]}) (reviewer_cache self), inr ()).
Proof. reflexivity. Qed.

(** Unfold the operations of the monad in the goal. *)
Ltac mrun :=
  cbv [mbind M_bind mret M_ret raise graph_add graph_contains
       get_reviewer_cache reviewer_cache_set try_except option_bind];
  cbn [graph reviewer_cache negb].

(** Equality of populators and of results, field by field. *)
Lemma Populator_eq (self : Populator) (g : gset Triple) (c : gmap ReviewerKey Node) :
  graph self = g → reviewer_cache self = c → self = mkPopulator g c.
Proof. destruct self; simpl; congruence. Qed.

Lemma state_eq {A : Type} (g g' : gset Triple) (c : gmap ReviewerKey Node) (r : Exception + A) :
  g = g' → (mkPopulator g c, r) = (mkPopulator g' c, r).
Proof. by intros ->. Qed.

Lemma state_eq' {A : Type} (g g' : gset Triple) (c c' : gmap ReviewerKey Node)
    (r : Exception + A) :
  g = g' → c = c' → (mkPopulator g c, r) = (mkPopulator g' c', r).
Proof. by intros -> ->. Qed.

(** [_get_or_create_software] in closed form: the graph grows by
    [software_delta] and the identifier is the one derived from the id. *)
Lemma _get_or_create_software_run (id name : string) (pagina : option string)
    (self : Populator) :
  _get_or_create_software id name pagina self =
  (mkPopulator (graph self ∪ software_delta (graph self) id name pagina)
               (reviewer_cache self),
   inr (software_uri id)).
Proof.
  unfold _get_or_create_software, software_delta, software_triples. mrun.
  case_bool_decide as Hin.
  - rewrite decide_True by done. mrun. f_equal.
    apply Populator_eq; [set_solver | done].
  - rewrite decide_False by done. mrun.
    destruct (truthy pagina); mrun; apply state_eq; set_solver.
Qed.

(** [_get_or_create_reviewer] in closed form: the graph grows by
    [reviewer_delta], the cache becomes [cache_after], and the identifier is
    [reviewer_of]. *)
Lemma _get_or_create_reviewer_run (a b c d : string) (self : Populator) :
  _get_or_create_reviewer a b c d self =
  (mkPopulator (graph self ∪ reviewer_delta (reviewer_cache self) (a, b, c, d))
               (cache_after (reviewer_cache self) (a, b, c, d)),
   inr (reviewer_of (reviewer_cache self) (a, b, c, d))).
Proof.
  unfold _get_or_create_reviewer, reviewer_delta, cache_after, reviewer_of,
    reviewer_triples. mrun.
  destruct (reviewer_cache self !! (a, b, c, d)) as [uri|] eqn:Hc;
    rewrite ?Hc; mrun.
  - f_equal. apply Populator_eq; [set_solver | done].
  - apply state_eq'; [set_solver | done].
Qed.

(** The guarded write of an optional column. *)
Lemma optional_run (review : Node) (row : Row) (column : string) (self : Populator) :
  (if truthy (row !! column)
   then v ← getitem row column; graph_add (review, SW column, Lit v)
   else mret ()) self =
  (mkPopulator (graph self ∪ optional_triple review row column)
               (reviewer_cache self), inr ()).
Proof.
  unfold optional_triple, getitem, truthy.
  destruct (row !! column) as [v|]; [destruct (negb (String.eqb v ""))|]; mrun;
    f_equal; try (apply Populator_eq; [set_solver | done]).
Qed.

(** *** How a pass of the loop body ends *)
Lemma filter_none {A} (P : A → Prop) `{!∀ x, Decision (P x)} (l : list A) :
  Forall (λ x, ¬ P x) l → filter P l = [].
Proof.
  induction 1 as [|x l Hx _ IH]; [done|].
  by rewrite filter_cons_False.
Qed.

Lemma first_missing_lookup (row : Row) (i : nat) (k : string) :
  required !! i = Some k →
  Forall (λ k, is_Some (row !! k)) (take i required) →
  row !! k = None →
  first_missing row = Some k.
Proof.
  intros Hi Hpre Hk. unfold first_missing.
  rewrite <-(take_drop_middle _ _ _ Hi), filter_app.
  rewrite filter_none.
  - simpl. rewrite filter_cons_True by done. done.
  - eapply Forall_impl; [done|]. intros x [v Hv]. cbn. congruence.
Qed.

Lemma first_missing_complete (row : Row) : complete row → first_missing row = None.
Proof.
  intros Hc. unfold first_missing.
  rewrite filter_none; [done|].
  eapply Forall_impl; [done|]. intros x [v Hv]. cbn. congruence.
Qed.

Lemma row_result_missing (row : Row) (i : nat) (k : string) :
  required !! i = Some k →
  Forall (λ k, is_Some (row !! k)) (take i required) →
  row !! k = None →
  row_result row = inl (KeyError k).
Proof. intros. unfold row_result. by erewrite first_missing_lookup. Qed.

Lemma row_result_complete (row : Row) : complete row → row_result row = inr ().
Proof. intros. unfold row_result. by rewrite first_missing_complete. Qed.

(** Equal unions up to association and empty sets. *)
Ltac union_norm :=
  cbn [mbind option_bind];
  rewrite <-?(assoc_L (∪)), ?(left_id_L ∅ (∪)), ?(right_id_L ∅ (∪));
  reflexivity.

(** The columns read so far are present. *)
Ltac row_fields := cbn [take required]; repeat constructor; eauto.

(** One step of the loop body: a column that is present is read and the
    run continues; a column that is absent ends it. *)
Ltac mstep := cbv beta iota; cbn [graph reviewer_cache].

Ltac present H :=
  rewrite bind_run, (getitem_Some _ _ _ _ H); mstep.

Ltac missing H i :=
  rewrite bind_run, (getitem_None _ _ _ H); mstep;
  rewrite (row_result_missing _ i _ eq_refl) by row_fields;
  apply state_eq; union_norm.

Section StepLemmas.
Variable strptime : string → option date.
Variable now : nat → date.

(** The inner [try]: a date that does not parse becomes the current date,
    a missing column is not caught. *)
Lemma date_run (row_num : nat) (row : Row) (s : string) (self : Populator) :
  row !! "data_avaliacao" = Some s →
  try_except (s ← getitem row "data_avaliacao"; strptime_date strptime s)
    (λ e, match e with
          | ValueError => mret (now row_num)
          | _ => raise e
          end) self = (self, inr (date_of strptime now row_num s)).
Proof.
  intros Hs. unfold getitem, strptime_date, date_of. rewrite Hs. mrun.
  by destruct (strptime s).
Qed.

Lemma date_run_None (row_num : nat) (row : Row) (self : Populator) :
  row !! "data_avaliacao" = None →
  try_except (s ← getitem row "data_avaliacao"; strptime_date strptime s)
    (λ e, match e with
          | ValueError => mret (now row_num)
          | _ => raise e
          end) self = (self, inl (KeyError "data_avaliacao")).
Proof. intros Hs. unfold getitem. rewrite Hs. by mrun. Qed.

(** One pass of the loop body in closed form: the graph grows by
    [row_delta], the cache becomes [row_cache], and the pass ends as
    [row_result] says. *)
Lemma process_row_run (row_num : nat) (row : Row) (self : Populator) :
  process_row strptime now row_num row self =
  (mkPopulator (graph self ∪ row_delta strptime now self row_num row)
               (row_cache self row),
   row_result row).
Proof.
  unfold process_row, row_delta, row_cache, reviewer_key, review_delta.
  destruct self as [g cache].
  destruct (row !! "software_id") as [id|] eqn:Hid; [|missing Hid 0].
  present Hid. present Hid.
  rewrite bind_run, _get_or_create_software_run; mstep.
  destruct (row !! "setor") as [setor|] eqn:Hsetor; [|missing Hsetor 1].
  present Hsetor.
  destruct (row !! "porte") as [porte|] eqn:Hporte; [|missing Hporte 2].
  present Hporte.
  destruct (row !! "frequencia") as [frequencia|] eqn:Hfrequencia;
    [|missing Hfrequencia 3].
  present Hfrequencia.
  destruct (row !! "frequencia_complementar") as [frequencia_complementar|]
    eqn:Hcomplementar; [|missing Hcomplementar 4].
  present Hcomplementar.
  rewrite bind_run, _get_or_create_reviewer_run; mstep.
  destruct (row !! "data_avaliacao") as [s|] eqn:Hdata.
  2: { rewrite bind_run, (date_run_None _ _ _ Hdata); mstep.
       rewrite (row_result_missing row 5 _ eq_refl) by row_fields.
       apply state_eq. union_norm. }
  rewrite bind_run, (date_run _ _ _ _ Hdata); mstep.
  rewrite bind_run, graph_add_run; mstep.
  destruct (row !! "fonte") as [fonte|] eqn:Hfonte; [|missing Hfonte 6].
  present Hfonte. rewrite bind_run, graph_add_run; mstep.
  destruct (row !! "recomendacao") as [recomendacao|] eqn:Hrec;
    [|missing Hrec 7].
  present Hrec. rewrite bind_run, graph_add_run; mstep.
  rewrite bind_run, graph_add_run; mstep.
  destruct (row !! "comentario") as [comentario|] eqn:Hcom; [|missing Hcom 8].
  present Hcom. rewrite bind_run, graph_add_run; mstep.
  destruct (row !! "vantagem") as [vantagem|] eqn:Hvan; [|missing Hvan 9].
  present Hvan. rewrite bind_run, graph_add_run; mstep.
  destruct (row !! "desvantagem") as [desvantagem|] eqn:Hdes;
    [|missing Hdes 10].
  present Hdes. rewrite bind_run, graph_add_run; mstep.
  rewrite bind_run, optional_run; mstep.
  rewrite bind_run, optional_run; mstep.
  rewrite bind_run, graph_add_run; mstep.
  rewrite graph_add_run; mstep.
  rewrite row_result_complete by (unfold complete; row_fields).
  apply state_eq. union_norm.
Qed.
End StepLemmas.

(** ** The schema *)

Lemma for_each_run {A : Type} (xs : list A) (body : A → M ()) (f : A → list Triple)
    (self : Populator) :
  (∀ x self, body x self =
     (mkPopulator (graph self ∪ list_to_set (f x)) (reviewer_cache self), inr ())) →
  for_each xs body self =
  (mkPopulator (graph self ∪ list_to_set (xs ≫= f)) (reviewer_cache self), inr ()).
Proof.
  intros Hbody. revert self.
  induction xs as [|x xs IH]; intros self; cbn [for_each].
  - unfold mret, M_ret. f_equal. apply Populator_eq; [|done].
    cbn [mbind list_bind list_to_set foldr]. by rewrite (right_id_L ∅ (∪)).
  - rewrite bind_run, Hbody. mstep. rewrite IH. cbn [graph reviewer_cache].
    apply state_eq. rewrite bind_cons, list_to_set_app_L.
    by rewrite (assoc_L (∪)).
Qed.

(** The constructor leaves the schema triples and an empty cache. *)
Lemma graph_init : graph __init__ = list_to_set schema_triples.
Proof.
  unfold __init__, _initialize_ontology, schema_triples.
  cbn [graph].
  rewrite bind_run.
  rewrite (for_each_run classes _ (λ cls, [(cls, RDF "type", OWL "Class")])).
  2: { intros x self. mrun. apply state_eq.
       cbn [list_to_set foldr]. by rewrite (right_id_L ∅ (∪)). }
  mstep. rewrite bind_run.
  rewrite (for_each_run obj_properties _ (λ '(prop, domain, range_),
     [ (prop, RDF "type", OWL "ObjectProperty");
       (prop, RDFS "domain", domain);
       (prop, RDFS "range", range_) ])).
  2: { intros [[prop domain] range_] self. mrun. apply state_eq.
       cbn [list_to_set foldr]. union_norm. }
  mstep.
  rewrite (for_each_run dt_properties _ (λ '(prop, domain, dtype),
     [ (prop, RDF "type", OWL "DatatypeProperty");
       (prop, RDFS "domain", domain);
       (prop, RDFS "range", dtype) ])).
  2: { intros [[prop domain] range_] self. mrun. apply state_eq.
       cbn [list_to_set foldr]. union_norm. }
  cbn [fst graph].
  rewrite !list_to_set_app_L, (left_id_L ∅ (∪)).
  by rewrite <-(assoc_L (∪)).
Qed.

Lemma initialised_init : initialised __init__.
Proof. split; [apply graph_init | unfold __init__; by cbn [reviewer_cache]]. Qed.

(** Every triple of the schema is a declaration. *)
Lemma schema_triples_is_schema : Forall (λ t, is_schema t = true) schema_triples.
Proof. apply (bool_decide_unpack _). vm_compute. exact I. Qed.

Lemma initialised_is_schema (self : Populator) (t : Triple) :
  initialised self → t ∈ graph self → is_schema t = true.
Proof.
  intros [-> _]. rewrite elem_of_list_to_set. intros Ht.
  by apply (proj1 (Forall_forall _ _) schema_triples_is_schema).
Qed.

(** ** The loop *)

Section RunLemmas.
Variable strptime : string → option date.
Variable now : nat → date.

(** The loop over a concatenation: the second part starts from the state
    and the row number the first part ends with. *)
Lemma process_rows_app (n : nat) (l1 l2 : list Row) (self : Populator) :
  process_rows strptime now n (l1 ++ l2) self =
  let '(s1, o1) := process_rows strptime now n l1 self in
  let '(s2, o2) := process_rows strptime now (n + length l1) l2 s1 in
  (s2, o1 ++ o2).
Proof.
  revert n self.
  induction l1 as [|r l1 IH]; intros n self; cbn [process_rows app length].
  - rewrite Nat.add_0_r. by destruct (process_rows strptime now n l2 self).
  - destruct (process_row strptime now n r self) as [s1 res].
    rewrite IH. destruct (process_rows strptime now (S n) l1 s1) as [s2 o2].
    replace (n + S (length l1)) with (S n + length l1) by lia.
    destruct (process_rows strptime now (S n + length l1) l2 s2) as [s3 o3].
    by rewrite (assoc_L (++)).
Qed.

Lemma process_csv_snoc (rows : list Row) (r : Row) (self : Populator) :
  (process_csv strptime now (rows ++ [r]) self).1 =
  (process_row strptime now (S (length rows)) r
     (process_csv strptime now rows self).1).1.
Proof.
  unfold process_csv. rewrite process_rows_app.
  destruct (process_rows strptime now 1 rows self) as [s1 o1].
  cbn [process_rows fst]. change (1 + length rows) with (S (length rows)).
  by destruct (process_row strptime now (S (length rows)) r s1).
Qed.

(** One more row: the graph and the cache after it. *)
Lemma graph_snoc (rows : list Row) (r : Row) (self : Populator) :
  graph (process_csv strptime now (rows ++ [r]) self).1 =
  graph (process_csv strptime now rows self).1 ∪
  row_delta strptime now (process_csv strptime now rows self).1
    (S (length rows)) r.
Proof. by rewrite process_csv_snoc, process_row_run. Qed.

Lemma cache_snoc (rows : list Row) (r : Row) (self : Populator) :
  reviewer_cache (process_csv strptime now (rows ++ [r]) self).1 =
  row_cache (process_csv strptime now rows self).1 r.
Proof. by rewrite process_csv_snoc, process_row_run. Qed.

(** The final graph is the initial one plus what each row wrote, on the
    state the rows before it left. *)
Lemma elem_of_graph (rows : list Row) (self : Populator) (t : Triple) :
  t ∈ graph (process_csv strptime now rows self).1 ↔
  t ∈ graph self ∨
  ∃ i row, rows !! i = Some row ∧
    t ∈ row_delta strptime now
          (process_csv strptime now (take i rows) self).1 (S i) row.
Proof.
  induction rows as [|r rows IH] using rev_ind.
  - unfold process_csv. cbn [process_rows fst]. split; [auto|].
    intros [?|(i & row & Hi & _)]; [done|].
    rewrite lookup_nil in Hi. discriminate Hi.
  - rewrite graph_snoc, elem_of_union, IH. split.
    + intros [[?|(i & row & Hi & Ht)]|Ht]; [by left| |].
      * right. exists i, row. split; [by apply lookup_app_l_Some|].
        rewrite take_app_le; [done|]. apply lookup_lt_Some in Hi. lia.
      * right. exists (length rows), r. split; [by rewrite list_lookup_middle|].
        by rewrite take_app_length.
    + intros [?|(i & row & Hi & Ht)]; [by left; left|].
      destruct (decide (i < length rows)) as [Hlt|Hge].
      * left. right. exists i, row. rewrite lookup_app_l in Hi by done.
        split; [done|]. rewrite take_app_le in Ht by lia. done.
      * assert (i = length rows) as ->.
        { apply lookup_lt_Some in Hi. rewrite length_app in Hi.
          cbn [length] in Hi. lia. }
        rewrite list_lookup_middle in Hi by done. injection Hi as ->.
        right. by rewrite take_app_length in Ht.
Qed.

(** The graph only grows along the file. *)
Lemma graph_take (rows : list Row) (i : nat) (self : Populator) :
  graph (process_csv strptime now (take i rows) self).1 ⊆
  graph (process_csv strptime now rows self).1.
Proof.
  intros t. rewrite (elem_of_graph (take i rows)), (elem_of_graph rows).
  intros [?|(j & row & Hj & Ht)]; [by left|]. right.
  exists j, row. pose proof (lookup_lt_Some _ _ _ Hj) as Hlt.
  rewrite length_take in Hlt.
  rewrite lookup_take_lt in Hj by lia. split; [done|].
  rewrite take_take in Ht. by replace (j `min` i) with j in Ht by lia.
Qed.

End RunLemmas.

(** ** What a row writes, triple by triple *)

Lemma elem_of_software_delta (g : gset Triple) (id name : string)
    (pagina : option string) (t : Triple) :
  t ∈ software_delta g id name pagina ↔
  ((software_uri id, RDF "type", SW "Software") ∉ g) ∧
  (t = (software_uri id, RDF "type", SW "Software") ∨
   t = (software_uri id, SW "software_id", Lit id) ∨
   t = (software_uri id, SW "name", Lit name) ∨
   ∃ p, pagina = Some p ∧ p ≠ "" ∧ t = (software_uri id, SW "pagina", Lit p)).
Proof.
  unfold software_delta, software_triples, truthy.
  case_decide as Hin; [set_solver|].
  destruct pagina as [p|]; [destruct (String.eqb_spec p "") as [->|Hp]|];
    cbn [negb default]; rewrite !elem_of_union, !elem_of_singleton, ?elem_of_empty.
  - naive_solver.
  - naive_solver.
  - naive_solver.
Qed.

Lemma elem_of_reviewer_delta (cache : gmap ReviewerKey Node) (key : ReviewerKey)
    (t : Triple) :
  t ∈ reviewer_delta cache key ↔
  cache !! key = None ∧
  let uri := reviewer_uri (size cache + 1) in
  (t = (uri, RDF "type", SW "Reviewer") ∨
   t = (uri, SW "setor", Lit key.1.1.1) ∨
   t = (uri, SW "porte", Lit key.1.1.2) ∨
   t = (uri, SW "frequencia", Lit key.1.2) ∨
   t = (uri, SW "frequencia_complementar", Lit key.2)).
Proof.
  unfold reviewer_delta, reviewer_triples.
  destruct (cache !! key); [set_solver|].
  cbv zeta. rewrite !elem_of_union, !elem_of_singleton. naive_solver.
Qed.

Lemma elem_of_optional_triple (review : Node) (row : Row) (column : string)
    (t : Triple) :
  t ∈ optional_triple review row column ↔
  ∃ v, row !! column = Some v ∧ v ≠ "" ∧ t = (review, SW column, Lit v).
Proof.
  unfold optional_triple.
  destruct (row !! column) as [v|]; [destruct (String.eqb_spec v "") as [->|Hv]|];
    cbn [negb]; rewrite ?elem_of_singleton, ?elem_of_empty; naive_solver.
Qed.

Section DeltaLemmas.
Variable strptime : string → option date.
Variable now : nat → date.

Lemma elem_of_review_delta (n : nat) (row : Row) (sw rv : Node) (s : string)
    (t : Triple) :
  t ∈ review_delta strptime now n row sw rv s ↔
  t = (review_uri n, RDF "type", SW "Review") ∨
  ∃ fonte, row !! "fonte" = Some fonte ∧
  (t = (review_uri n, SW "fonte", Lit fonte) ∨
  ∃ recomendacao, row !! "recomendacao" = Some recomendacao ∧
  (t = (review_uri n, SW "recomendacao", Lit recomendacao) ∨
   t = (review_uri n, SW "data_avaliacao", DateLit (date_of strptime now n s)) ∨
  ∃ comentario, row !! "comentario" = Some comentario ∧
  (t = (review_uri n, SW "comentario", Lit comentario) ∨
  ∃ vantagem, row !! "vantagem" = Some vantagem ∧
  (t = (review_uri n, SW "vantagem", Lit vantagem) ∨
  ∃ desvantagem, row !! "desvantagem" = Some desvantagem ∧
  (t = (review_uri n, SW "desvantagem", Lit desvantagem) ∨
   (∃ v, row !! "sft_anterior" = Some v ∧ v ≠ "" ∧
      t = (review_uri n, SW "sft_anterior", Lit v)) ∨
   (∃ v, row !! "motivo_mudanca" = Some v ∧ v ≠ "" ∧
      t = (review_uri n, SW "motivo_mudanca", Lit v)) ∨
   t = (sw, SW "hasReview", review_uri n) ∨
   t = (review_uri n, SW "madeBy", rv)))))).
Proof.
  unfold review_delta. cbv zeta.
  destruct (row !! "fonte") as [fonte|];
    [destruct (row !! "recomendacao") as [recomendacao|];
     [destruct (row !! "comentario") as [comentario|];
      [destruct (row !! "vantagem") as [vantagem|];
       [destruct (row !! "desvantagem") as [desvantagem|]|]|]|]|];
    rewrite ?elem_of_union, ?elem_of_optional_triple, ?elem_of_singleton,
      ?elem_of_empty; naive_solver.
Qed.
End DeltaLemmas.

Section RowDelta.
Variable strptime : string → option date.
Variable now : nat → date.

(** What a row writes: the software part, then the reviewer part, then the
    review part, each only when the columns read before it are present. *)
Lemma elem_of_row_delta (self : Populator) (n : nat) (row : Row) (t : Triple) :
  t ∈ row_delta strptime now self n row ↔
  ∃ id, row !! "software_id" = Some id ∧
    (t ∈ software_delta (graph self) id (name_of row id) (row !! "pagina") ∨
     ∃ key, reviewer_key row = Some key ∧
       (t ∈ reviewer_delta (reviewer_cache self) key ∨
        ∃ s, row !! "data_avaliacao" = Some s ∧
          t ∈ review_delta strptime now n row (software_uri id)
                (reviewer_of (reviewer_cache self) key) s)).
Proof.
  unfold row_delta.
  destruct (row !! "software_id") as [id|];
    [|rewrite elem_of_empty; naive_solver].
  rewrite elem_of_union.
  destruct (reviewer_key row) as [key|];
    [|rewrite elem_of_empty; naive_solver].
  rewrite elem_of_union.
  destruct (row !! "data_avaliacao") as [s|];
    [|rewrite elem_of_empty; naive_solver].
  naive_solver.
Qed.

(** Nothing a row writes is a schema declaration. *)
Lemma row_delta_not_schema (self : Populator) (n : nat) (row : Row) (t : Triple) :
  t ∈ row_delta strptime now self n row → is_schema t = false.
Proof.
  intros (id & Hid & [Hsw | (key & Hkey & [Hrv | (s & Hs & Hrev)])])%elem_of_row_delta.
  - apply elem_of_software_delta in Hsw as (_ & Hsw).
    destruct Hsw as [->|[->|[->|(p & _ & _ & ->)]]]; reflexivity.
  - apply elem_of_reviewer_delta in Hrv as (_ & Hrv). cbv zeta in Hrv.
    destruct Hrv as [->|[->|[->|[->| ->]]]]; reflexivity.
  - apply elem_of_review_delta in Hrev.
    destruct Hrev as [->|(? & _ & [->|(? & _ & [->|[->|(? & _ & [->|
      (? & _ & [->|(? & _ & [->|[(? & _ & _ & ->)|[(? & _ & _ & ->)|[->| ->]]]])])])]])])];
      reflexivity.
Qed.
End RowDelta.

(** Split a membership in [row_delta] into the triples it can be. *)
Ltac delta_inv H :=
  apply elem_of_row_delta in H
    as (?id & ?Hid & [H | (?key & ?Hkey & [H | (?s & ?Hdata & H)])]);
  [ apply elem_of_software_delta in H
      as (?Hnew & [H|[H|[H|(?p & ?Hpag & ?Hp & H)]]])
  | apply elem_of_reviewer_delta in H as (?Hmiss & H); cbv zeta in H;
    destruct H as [H|[H|[H|[H|H]]]]
  | apply elem_of_review_delta in H;
    destruct H as [H|(?fonte & ?Hfonte & [H|(?rec & ?Hrec & [H|[H|
      (?com & ?Hcom & [H|(?van & ?Hvan & [H|(?des & ?Hdes &
        [H|[(?v & ?Hv & ?Hne & H)|[(?v & ?Hv & ?Hne & H)|[H|H]]]])])])]])])] ].

(** Use the node equations a triple equation gives: nodes that differ close
    the goal, variables are substituted, identifiers of one namespace are
    reduced to their local names. *)
Ltac node_eqs :=
  repeat match goal with
  | H : false = true |- _ => discriminate H
  | H : true = false |- _ => discriminate H
  | H : @eq string _ _ |- _ => discriminate H
  | H : "" +:+ ?a = "" +:+ ?b |- _ => change (a = b) in H
  | H : (_, _, _) = (_, _, _) |- _ => injection H; clear H; intros
  | H : @eq Node ?a ?a |- _ => clear H
  | H : @eq Node ?a ?b |- _ => is_var a; subst a
  | H : @eq Node ?a ?b |- _ => is_var b; subst b
  | H : SW _ = SW _ |- _ =>
      apply Namespace_inj in H;
      first [ exfalso; cbn [String.append] in H; discriminate H
            | apply string_app_inj in H
            | idtac ]
  | H : pretty _ = pretty _ |- _ => apply (inj pretty) in H
  | H : S _ = S _ |- _ => injection H; clear H; intros
  | H : @eq string ?a ?b |- _ => is_var a; subst a
  | H : @eq string ?a ?b |- _ => is_var b; subst b
  | H : @eq nat ?a ?b |- _ => is_var a; subst a
  | H : @eq nat ?a ?b |- _ => is_var b; subst b
  | H : Lit _ = Lit _ |- _ => unfold Lit in H; injection H; clear H; intros
  | H : DateLit _ = DateLit _ |- _ =>
      unfold DateLit in H; injection H; clear H; intros
  | H : @eq Node _ _ |- _ =>
      exfalso; clear -H;
      unfold SW, RDF, RDFS, OWL, XSD, XSD_base, Namespace, Lit, DateLit in H;
      cbn [String.append] in H; discriminate H
  end.

Section RunFacts.
Variable strptime : string → option date.
Variable now : nat → date.
Variable self0 : Populator.
Hypothesis Hinit : initialised self0.

Local Abbreviation P rows := (process_csv strptime now rows self0).1.

(** The state after row [i] is the state before it plus what it wrote. *)
Lemma graph_take_S (rows : list Row) (i : nat) (row : Row) :
  rows !! i = Some row →
  graph (P (take (S i) rows)) =
  graph (P (take i rows)) ∪ row_delta strptime now (P (take i rows)) (S i) row.
Proof.
  intros Hi. rewrite (take_S_r _ _ _ Hi), graph_snoc, length_take_le; [done|].
  apply lookup_lt_Some in Hi. lia.
Qed.

Lemma cache_take_S (rows : list Row) (i : nat) (row : Row) :
  rows !! i = Some row →
  reviewer_cache (P (take (S i) rows)) = row_cache (P (take i rows)) row.
Proof. intros Hi. by rewrite (take_S_r _ _ _ Hi), cache_snoc. Qed.

(** Declarations come from the constructor, everything else from a row. *)
Lemma schema_elem (rows : list Row) (t : Triple) :
  is_schema t = true → t ∈ graph (P rows) ↔ t ∈ graph self0.
Proof.
  intros Ht. rewrite elem_of_graph. split; [|auto].
  intros [?|(i & row & _ & Hd)]; [done|].
  apply row_delta_not_schema in Hd. congruence.
Qed.

Lemma data_elem (rows : list Row) (t : Triple) :
  is_schema t = false →
  t ∈ graph (P rows) ↔
  ∃ i row, rows !! i = Some row ∧
    t ∈ row_delta strptime now (P (take i rows)) (S i) row.
Proof.
  intros Ht. rewrite elem_of_graph. split; [|auto].
  intros [Hin|?]; [|done].
  apply (initialised_is_schema _ _ Hinit) in Hin. congruence.
Qed.

(** After row [i], whatever it wrote is in the final graph. *)
Lemma row_delta_in_graph (rows : list Row) (i : nat) (row : Row) (t : Triple) :
  rows !! i = Some row →
  t ∈ row_delta strptime now (P (take i rows)) (S i) row →
  t ∈ graph (P rows).
Proof. intros Hi Ht. apply elem_of_graph. right. eauto. Qed.

(** *** Software *)

Lemma software_typed (rows : list Row) (s : Node) :
  (s, RDF "type", SW "Software") ∈ graph (P rows) ↔
  ∃ row id, row ∈ rows ∧ row !! "software_id" = Some id ∧ s = software_uri id.
Proof.
  split.
  - intros (i & row & Hi & Hd)%data_elem; [|reflexivity].
    delta_inv Hd; node_eqs.
    exists row, id. split; [by eapply list_elem_of_lookup_2|done].
  - intros (row & id & (i & Hi)%list_elem_of_lookup_1 & Hid & ->).
    apply (graph_take _ _ _ (S i)). rewrite (graph_take_S _ _ _ Hi), elem_of_union.
    destruct (decide ((software_uri id, RDF "type", SW "Software")
                        ∈ graph (P (take i rows)))) as [?|Hnew]; [by left|].
    right. apply elem_of_row_delta. exists id. split; [done|]. left.
    apply elem_of_software_delta. auto.
Qed.
End RunFacts.

(** ** Rows and their columns *)

Lemma complete_fields (row : Row) :
  complete row ↔
  ∃ id setor porte frequencia complementar s fonte rec com van des,
    row !! "software_id" = Some id ∧ row !! "setor" = Some setor ∧
    row !! "porte" = Some porte ∧ row !! "frequencia" = Some frequencia ∧
    row !! "frequencia_complementar" = Some complementar ∧
    row !! "data_avaliacao" = Some s ∧ row !! "fonte" = Some fonte ∧
    row !! "recomendacao" = Some rec ∧ row !! "comentario" = Some com ∧
    row !! "vantagem" = Some van ∧ row !! "desvantagem" = Some des.
Proof.
  unfold complete, required. rewrite !Forall_cons, Forall_nil. unfold is_Some.
  split.
  - intros ([id ?] & [a ?] & [b ?] & [c ?] & [d ?] & [s ?] & [f ?] & [r ?] &
            [co ?] & [v ?] & [de ?] & _).
    exists id, a, b, c, d, s, f, r, co, v, de. tauto.
  - intros (id & a & b & c & d & s & f & r & co & v & de & H). 
    destruct H as (? & ? & ? & ? & ? & ? & ? & ? & ? & ? & ?).
    repeat split; eauto.
Qed.

Lemma reaches_review_fields (row : Row) :
  reaches_review row ↔
  ∃ id setor porte frequencia complementar s,
    row !! "software_id" = Some id ∧ row !! "setor" = Some setor ∧
    row !! "porte" = Some porte ∧ row !! "frequencia" = Some frequencia ∧
    row !! "frequencia_complementar" = Some complementar ∧
    row !! "data_avaliacao" = Some s.
Proof.
  unfold reaches_review, required. cbn [take].
  rewrite !Forall_cons, Forall_nil. unfold is_Some.
  split.
  - intros ([id ?] & [a ?] & [b ?] & [c ?] & [d ?] & [s ?] & _).
    exists id, a, b, c, d, s. tauto.
  - intros (id & a & b & c & d & s & ? & ? & ? & ? & ? & ?).
    repeat split; eauto.
Qed.

Lemma reviewer_key_Some (row : Row) (key : ReviewerKey) :
  reviewer_key row = Some key ↔
  row !! "setor" = Some key.1.1.1 ∧ row !! "porte" = Some key.1.1.2 ∧
  row !! "frequencia" = Some key.1.2 ∧
  row !! "frequencia_complementar" = Some key.2.
Proof.
  unfold reviewer_key. destruct key as [[[a b] c] d]. cbn [fst snd].
  destruct (row !! "setor"), (row !! "porte"), (row !! "frequencia"),
    (row !! "frequencia_complementar"); cbn; naive_solver.
Qed.

Lemma complete_reaches_review (row : Row) : complete row → reaches_review row.
Proof.
  unfold complete, reaches_review. intros H.
  rewrite <-(take_drop 6 required) in H. by apply Forall_app in H as [H _].
Qed.

(** ** The reviewer cache *)

Lemma cache_after_subseteq (cache : gmap ReviewerKey Node) (key : ReviewerKey) :
  cache ⊆ cache_after cache key.
Proof.
  unfold cache_after. destruct (cache !! key) eqn:Hk; [done|].
  by apply insert_subseteq.
Qed.

Lemma cache_after_lookup (cache : gmap ReviewerKey Node) (key : ReviewerKey) :
  cache_after cache key !! key = Some (reviewer_of cache key).
Proof.
  unfold cache_after, reviewer_of. destruct (cache !! key) eqn:Hk; [done|].
  by rewrite lookup_insert_eq.
Qed.

Lemma row_cache_subseteq (self : Populator) (row : Row) :
  reviewer_cache self ⊆ row_cache self row.
Proof.
  unfold row_cache. destruct (row !! "software_id"); [|done].
  destruct (reviewer_key row); [|done]. apply cache_after_subseteq.
Qed.

Section CacheFacts.
Variable strptime : string → option date.
Variable now : nat → date.
Variable self0 : Populator.
Hypothesis Hinit : initialised self0.

Local Abbreviation P rows := (process_csv strptime now rows self0).1.

(** The cache only grows along the file. *)
Lemma cache_take_subseteq (rows : list Row) (i : nat) :
  reviewer_cache (P (take i rows)) ⊆ reviewer_cache (P rows).
Proof.
  induction rows as [|r rows IH] using rev_ind; [by rewrite take_nil|].
  destruct (decide (i ≤ length rows)%nat) as [Hle|Hgt].
  - rewrite take_app_le by done. etrans; [apply IH|].
    rewrite cache_snoc. apply row_cache_subseteq.
  - rewrite take_ge; [done|]. rewrite length_app. cbn [length]. lia.
Qed.

(** The reviewer a row resolves to is in the cache from then on. *)
Lemma cache_row_lookup (rows : list Row) (i : nat) (row : Row) (id : string)
    (key : ReviewerKey) :
  rows !! i = Some row →
  row !! "software_id" = Some id →
  reviewer_key row = Some key →
  reviewer_cache (P rows) !! key =
  Some (reviewer_of (reviewer_cache (P (take i rows))) key).
Proof.
  intros Hi Hid Hkey.
  eapply lookup_weaken; [|apply (cache_take_subseteq rows (S i))].
  rewrite (cache_take_S _ _ _ _ _ _ Hi). unfold row_cache.
  rewrite Hid, Hkey. apply cache_after_lookup.
Qed.

(** Every cached reviewer is typed in the graph. *)
Lemma cache_typed (rows : list Row) (key : ReviewerKey) (u : Node) :
  reviewer_cache (P rows) !! key = Some u →
  (u, RDF "type", SW "Reviewer") ∈ graph (P rows).
Proof.
  revert key u. induction rows as [|r rows IH] using rev_ind; intros key u.
  - unfold process_csv. cbn [process_rows fst].
    destruct Hinit as [_ ->]. by rewrite lookup_empty.
  - rewrite cache_snoc, graph_snoc, elem_of_union. unfold row_cache.
    destruct (r !! "software_id") as [id|] eqn:Hid; [|by left; eapply IH].
    destruct (reviewer_key r) as [key'|] eqn:Hkey; [|by left; eapply IH].
    unfold cache_after.
    destruct (reviewer_cache (P rows) !! key') as [u'|] eqn:Hc;
      [by left; eapply IH|].
    rewrite lookup_insert. case_decide as Hk; [|by left; eapply IH].
    intros [= <-]. right. apply elem_of_row_delta. exists id.
    split; [done|]. right. exists key'. split; [done|]. left.
    apply elem_of_reviewer_delta. split; [done|]. by left.
Qed.
End CacheFacts.

(** Review identifiers are not subjects or objects of the schema. *)
Lemma is_review_uri_review (n : nat) : is_review_uri (review_uri n) = true.
Proof. unfold SW, Namespace, is_review_uri. by destruct (pretty n). Qed.

Lemma schema_triples_not_review :
  Forall (λ t, is_review_uri (subject t) = false ∧ is_review_uri (object t) = false)
         schema_triples.
Proof. apply (bool_decide_unpack _). vm_compute. exact I. Qed.

Lemma initialised_not_review (self : Populator) (t : Triple) (n : nat) :
  initialised self → t ∈ graph self →
  subject t ≠ review_uri n ∧ object t ≠ review_uri n.
Proof.
  intros [-> _]. rewrite elem_of_list_to_set. intros Ht.
  apply (proj1 (Forall_forall _ _) schema_triples_not_review) in Ht as [Hs Ho].
  split; intros Heq; rewrite Heq, is_review_uri_review in *; discriminate.
Qed.

Section ReviewFacts.
Variable strptime : string → option date.
Variable now : nat → date.
Variable self0 : Populator.
Hypothesis Hinit : initialised self0.

Local Abbreviation P rows := (process_csv strptime now rows self0).1.

(** Cached reviewers are numbered from 1 to the size of the cache. *)
Lemma cache_values (rows : list Row) (key : ReviewerKey) (u : Node) :
  reviewer_cache (P rows) !! key = Some u →
  ∃ k, (1 ≤ k ≤ size (reviewer_cache (P rows)))%nat ∧ u = reviewer_uri k.
Proof.
  revert key u. induction rows as [|r rows IH] using rev_ind; intros key u.
  - unfold process_csv. cbn [process_rows fst].
    destruct Hinit as [_ ->]. by rewrite lookup_empty.
  - rewrite cache_snoc. unfold row_cache.
    destruct (r !! "software_id") as [id|]; [|apply IH].
    destruct (reviewer_key r) as [key'|]; [|apply IH].
    unfold cache_after.
    destruct (reviewer_cache (P rows) !! key') as [u'|] eqn:Hc; [apply IH|].
    rewrite map_size_insert_None by done.
    rewrite lookup_insert. case_decide as Hk.
    + intros <-%(inj Some). exists (size (reviewer_cache (P rows)) + 1).
      split; [lia|done].
    + intros (k & Hk' & ->)%IH. exists k. split; [lia|done].
Qed.

(** Distinct keys have distinct reviewers. *)
Lemma cache_inj (rows : list Row) (k1 k2 : ReviewerKey) (u : Node) :
  reviewer_cache (P rows) !! k1 = Some u →
  reviewer_cache (P rows) !! k2 = Some u →
  k1 = k2.
Proof.
  revert k1 k2 u. induction rows as [|r rows IH] using rev_ind; intros k1 k2 u.
  - unfold process_csv. cbn [process_rows fst].
    destruct Hinit as [_ ->]. by rewrite lookup_empty.
  - rewrite cache_snoc. unfold row_cache.
    destruct (r !! "software_id") as [id|]; [|apply IH].
    destruct (reviewer_key r) as [key'|]; [|apply IH].
    unfold cache_after.
    destruct (reviewer_cache (P rows) !! key') as [u'|] eqn:Hc; [apply IH|].
    rewrite !lookup_insert. repeat case_decide; subst.
    + done.
    + intros <-%(inj Some) (k & Hk & Heq%reviewer_uri_inj)%cache_values. lia.
    + intros (k & Hk & ->)%cache_values Heq%(inj Some)%reviewer_uri_inj. lia.
    + apply IH.
Qed.



(** *** Reviews *)

Lemma review_typed (rows : list Row) (s : Node) :
  (s, RDF "type", SW "Review") ∈ graph (P rows) ↔
  ∃ i row, rows !! i = Some row ∧ reaches_review row ∧ s = review_uri (S i).
Proof.
  split.
  - intros (i & row & Hi & Hd)%data_elem; [|done|reflexivity].
    delta_inv Hd; node_eqs.
    exists i, row. split; [done|]. split; [|done].
    apply reviewer_key_Some in Hkey as (? & ? & ? & ?).
    apply reaches_review_fields. eauto 20.
  - intros (i & row & Hi & Hr & ->).
    apply reaches_review_fields in Hr
      as (id & a & b & c & d & s & Hid & Ha & Hb & Hc & Hd & Hs).
    eapply row_delta_in_graph; [done|].
    apply elem_of_row_delta. exists id. split; [done|]. right.
    exists (a, b, c, d). split; [by apply reviewer_key_Some|]. right.
    exists s. split; [done|]. apply elem_of_review_delta. by left.
Qed.

(** The [madeBy] and [hasReview] triples are those of the complete rows. *)
Lemma madeBy_elem (rows : list Row) (s o : Node) :
  (s, SW "madeBy", o) ∈ graph (P rows) ↔
  ∃ i row key, rows !! i = Some row ∧ complete row ∧
    reviewer_key row = Some key ∧ s = review_uri (S i) ∧
    o = reviewer_of (reviewer_cache (P (take i rows))) key.
Proof.
  split.
  - intros (i & row & Hi & Hd)%data_elem; [|done|reflexivity].
    delta_inv Hd; node_eqs.
    exists i, row, key. split; [done|]. split; [|done].
    apply reviewer_key_Some in Hkey as (? & ? & ? & ?).
    apply complete_fields. eauto 30.
  - intros (i & row & key & Hi & Hc & Hkey & -> & ->).
    apply complete_fields in Hc
      as (id & a & b & c & d & s & f & r & co & v & de & Hid & _ & _ & _ & _
          & Hs & Hf & Hr & Hco & Hv & Hde).
    eapply row_delta_in_graph; [done|].
    apply elem_of_row_delta. exists id. split; [done|]. right.
    exists key. split; [done|]. right.
    exists s. split; [done|]. apply elem_of_review_delta.
    right. exists f. split; [done|]. right. exists r. split; [done|].
    right. right. exists co. split; [done|]. right. exists v. split; [done|].
    right. exists de. split; [done|]. auto 10.
Qed.

Lemma hasReview_elem (rows : list Row) (s o : Node) :
  (s, SW "hasReview", o) ∈ graph (P rows) ↔
  ∃ i row id, rows !! i = Some row ∧ complete row ∧
    row !! "software_id" = Some id ∧ s = software_uri id ∧
    o = review_uri (S i).
Proof.
  split.
  - intros (i & row & Hi & Hd)%data_elem; [|done|reflexivity].
    delta_inv Hd; node_eqs.
    exists i, row, id. split; [done|]. split; [|done].
    apply reviewer_key_Some in Hkey as (? & ? & ? & ?).
    apply complete_fields. eauto 30.
  - intros (i & row & id & Hi & Hc & Hid & -> & ->).
    apply complete_fields in Hc
      as (id' & a & b & c & d & s & f & r & co & v & de & Hid' & Ha & Hb & Hc
          & Hd & Hs & Hf & Hr & Hco & Hv & Hde).
    eapply row_delta_in_graph; [done|].
    apply elem_of_row_delta. exists id. split; [done|]. right.
    exists (a, b, c, d). split; [by apply reviewer_key_Some|]. right.
    exists s. split; [done|]. apply elem_of_review_delta.
    right. exists f. split; [done|]. right. exists r. split; [done|].
    right. right. exists co. split; [done|]. right. exists v. split; [done|].
    right. exists de. split; [done|]. auto 10.
Qed.
End ReviewFacts.

Section EntityFacts.
Variable strptime : string → option date.
Variable now : nat → date.
Variable self0 : Populator.
Hypothesis Hinit : initialised self0.

Local Abbreviation P rows := (process_csv strptime now rows self0).1.

(** The triples about review [S i] are those row [i] wrote. *)
Lemma review_subject (rows : list Row) (i : nat) (p o : Node) :
  (review_uri (S i), p, o) ∈ graph (P rows) ↔
  ∃ row, rows !! i = Some row ∧
    (review_uri (S i), p, o) ∈ row_delta strptime now (P (take i rows)) (S i) row.
Proof.
  split.
  - intros [Hin|(j & row & Hj & Hd)]%elem_of_graph.
    + by apply (initialised_not_review _ _ (S i) Hinit) in Hin as [[] _].
    + pose proof Hd as Hd'. delta_inv Hd'; node_eqs; eauto.
  - intros (row & Hi & Hd). by eapply row_delta_in_graph.
Qed.


(** *** Software *)

Lemma software_id_elem (rows : list Row) (s o : Node) :
  (s, SW "software_id", o) ∈ graph (P rows) →
  ∃ id, s = software_uri id ∧ o = Lit id ∧
    (s, RDF "type", SW "Software") ∈ graph (P rows).
Proof.
  intros (i & row & Hi & Hd)%data_elem; [|done|reflexivity].
  delta_inv Hd; node_eqs.
  exists id. split; [done|]. split; [done|].
  apply software_typed; [done|]. exists row, id.
  split; [by eapply list_elem_of_lookup_2|done].
Qed.

Lemma software_name_elem (rows : list Row) (s o : Node) :
  (s, SW "name", o) ∈ graph (P rows) ↔
  ∃ i row id, rows !! i = Some row ∧ row !! "software_id" = Some id ∧
    ((software_uri id, RDF "type", SW "Software")
       ∉ graph (P (take i rows))) ∧
    s = software_uri id ∧ o = Lit (name_of row id).
Proof.
  split.
  - intros (i & row & Hi & Hd)%data_elem; [|done|reflexivity].
    delta_inv Hd; node_eqs. exists i, row, id. done.
  - intros (i & row & id & Hi & Hid & Hnew & -> & ->).
    eapply row_delta_in_graph; [done|].
    apply elem_of_row_delta. exists id. split; [done|]. left.
    apply elem_of_software_delta. auto.
Qed.

Lemma software_pagina_elem (rows : list Row) (s o : Node) :
  (s, SW "pagina", o) ∈ graph (P rows) ↔
  ∃ i row id p, rows !! i = Some row ∧ row !! "software_id" = Some id ∧
    ((software_uri id, RDF "type", SW "Software")
       ∉ graph (P (take i rows))) ∧
    row !! "pagina" = Some p ∧ p ≠ "" ∧
    s = software_uri id ∧ o = Lit p.
Proof.
  split.
  - intros (i & row & Hi & Hd)%data_elem; [|done|reflexivity].
    delta_inv Hd; node_eqs. exists i, row, id, p. done.
  - intros (i & row & id & p & Hi & Hid & Hnew & Hp & Hne & -> & ->).
    eapply row_delta_in_graph; [done|].
    apply elem_of_row_delta. exists id. split; [done|]. left.
    apply elem_of_software_delta. split; [done|]. eauto 10.
Qed.

(** The row that creates a software is the first one with its id. *)
Lemma first_row_index (pre post : list Row) (row row' : Row) (id : string)
    (i : nat) :
  row !! "software_id" = Some id →
  (∀ r, r ∈ pre → r !! "software_id" ≠ Some id) →
  (pre ++ row :: post) !! i = Some row' →
  row' !! "software_id" = Some id →
  (software_uri id, RDF "type", SW "Software")
    ∉ graph (P (take i (pre ++ row :: post))) →
  i = length pre ∧ row' = row.
Proof.
  intros Hid Hpre Hi Hid' Hnew.
  destruct (Nat.lt_trichotomy i (length pre)) as [Hlt|[->|Hgt]].
  - rewrite lookup_app_l in Hi by done.
    apply list_elem_of_lookup_2 in Hi. by apply Hpre in Hi.
  - rewrite list_lookup_middle in Hi by done. by injection Hi as ->.
  - destruct Hnew. apply software_typed; [done|]. exists row, id.
    split; [|done]. apply list_elem_of_lookup. exists (length pre).
    rewrite lookup_take_lt by done. by apply list_lookup_middle.
Qed.

Lemma software_new_before (pre : list Row) (id : string) :
  (∀ r, r ∈ pre → r !! "software_id" ≠ Some id) →
  (software_uri id, RDF "type", SW "Software") ∉ graph (P pre).
Proof.
  intros Hpre (r & id' & Hr & Hid' & Heq%software_uri_inj)%software_typed;
    [|done]. subst id'. by apply Hpre in Hr.
Qed.
End EntityFacts.

(** ** Counting subjects *)

Lemma elem_of_subjects (g : gset Triple) (p o s : Node) :
  s ∈ subjects g p o ↔ (s, p, o) ∈ g.
Proof.
  unfold subjects. rewrite list_elem_of_fmap. split.
  - intros ([[s' p'] o'] & -> & Ht). apply elem_of_elements in Ht.
    apply elem_of_filter in Ht as [[Hp Ho] Ht]. cbn in *. by subst.
  - intros Ht. exists (s, p, o). split; [done|].
    apply elem_of_elements, elem_of_filter. done.
Qed.

Lemma NoDup_subjects (g : gset Triple) (p o : Node) : NoDup (subjects g p o).
Proof.
  unfold subjects. apply NoDup_fmap_2_strong; [|apply NoDup_elements].
  intros [[s1 p1] o1] [[s2 p2] o2] H1 H2 Heq.
  apply elem_of_elements, elem_of_filter in H1 as [[? ?] _].
  apply elem_of_elements, elem_of_filter in H2 as [[? ?] _].
  cbn in *. congruence.
Qed.

Lemma length_subjects (g : gset Triple) (p o : Node) (l : list Node) :
  NoDup l → (∀ s, s ∈ l ↔ (s, p, o) ∈ g) → length (subjects g p o) = length l.
Proof.
  intros Hl Hiff. apply Permutation_length, NoDup_Permutation;
    [apply NoDup_subjects|done|].
  intros s. by rewrite elem_of_subjects, Hiff.
Qed.

(** ** What the loop prints *)

Section Output.
Variable strptime : string → option date.
Variable now : nat → date.

(** One report per skipped row, in the order of the file. *)
Lemma process_rows_out (n : nat) (rows : list Row) (self : Populator) :
  (process_rows strptime now n rows self).2 =
  mjoin (imap (λ i row, report (n + i) (row_result row)) rows).
Proof.
  revert n self. induction rows as [|r rows IH]; intros n self; [done|].
  cbn [process_rows imap mjoin list_join].
  rewrite process_row_run.
  specialize (IH (S n)
    (mkPopulator (graph self ∪ row_delta strptime now self n r)
                 (row_cache self r))).
  destruct (process_rows strptime now (S n) rows _) as [s2 out].
  cbn [snd] in *. rewrite Nat.add_0_r. f_equal. rewrite IH.
  f_equal. apply imap_ext. intros i x _. cbn. f_equal. lia.
Qed.

Lemma elem_of_out (rows : list Row) (self : Populator) (l : Line) :
  l ∈ (process_csv strptime now rows self).2 ↔
  ∃ i row, rows !! i = Some row ∧ l ∈ report (S i) (row_result row).
Proof.
  unfold process_csv. rewrite process_rows_out, list_elem_of_join. split.
  - intros (ls & Hl & (i & Hi)%list_elem_of_lookup_1).
    rewrite list_lookup_imap in Hi.
    destruct (rows !! i) as [row|] eqn:Hrow; [|done].
    cbn in Hi. injection Hi as <-. eauto.
  - intros (i & row & Hi & Hl). eexists. split; [done|].
    apply list_elem_of_lookup. exists i. by rewrite list_lookup_imap, Hi.
Qed.
End Output.

(** *** The three counts *)
Lemma elem_of_software_ids (rows : list Row) (id : string) :
  id ∈ software_ids rows ↔ ∃ row, row ∈ rows ∧ row !! "software_id" = Some id.
Proof. unfold software_ids. by rewrite elem_of_list_to_set, list_elem_of_omap. Qed.

Section Counts.
Variable strptime : string → option date.
Variable now : nat → date.
Variable self0 : Populator.
Hypothesis Hinit : initialised self0.

Local Abbreviation P rows := (process_csv strptime now rows self0).1.

Lemma software_count_run (rows : list Row) :
  software_count (P rows) = size (software_ids rows).
Proof.
  unfold software_count.
  rewrite (length_subjects _ _ _
             ((λ id, software_uri id) <$> elements (software_ids rows))).
  - by rewrite length_fmap.
  - apply NoDup_fmap_2; [|apply NoDup_elements].
    intros a b. apply software_uri_inj.
  - intros s. rewrite list_elem_of_fmap, software_typed by done. split.
    + intros (id & -> & Hid). apply elem_of_elements, elem_of_software_ids in Hid
        as (row & ? & ?). eauto.
    + intros (row & id & ? & ? & ->). exists id. split; [done|].
      apply elem_of_elements, elem_of_software_ids. eauto.
Qed.

Lemma review_count_snoc (rows : list Row) (r : Row) :
  review_count (P (rows ++ [r])) =
  review_count (P rows) + (if decide (reaches_review r) then 1 else 0).
Proof.
  unfold review_count.
  rewrite (length_subjects _ _ _
    (subjects (graph (P rows)) (RDF "type") (SW "Review") ++
     if decide (reaches_review r) then [review_uri (S (length rows))] else [])).
  - rewrite length_app. by destruct (decide (reaches_review r)).
  - apply NoDup_app. split; [apply NoDup_subjects|]. split.
    + intros s (i & row & Hi & _ & ->)%elem_of_subjects%review_typed; [|done].
      destruct (decide (reaches_review r)); [|apply not_elem_of_nil].
      rewrite list_elem_of_singleton. intros Heq%review_uri_inj.
      apply lookup_lt_Some in Hi. lia.
    + destruct (decide (reaches_review r)); [apply NoDup_singleton|apply NoDup_nil_2].
  - intros s. rewrite elem_of_app, elem_of_subjects, !review_typed by done.
    split.
    + intros [(i & row & Hi & Hr & ->)|Hs].
      * exists i, row. split; [by apply lookup_app_l_Some|done].
      * destruct (decide (reaches_review r)) as [Hr|]; [|by rewrite elem_of_nil in Hs].
        apply list_elem_of_singleton in Hs as ->.
        exists (length rows), r. by rewrite list_lookup_middle.
    + intros (i & row & Hi & Hr & ->).
      destruct (decide (i < length rows)%nat) as [Hlt|Hge].
      * left. exists i, row. by rewrite lookup_app_l in Hi.
      * right. assert (i = length rows) as ->.
        { apply lookup_lt_Some in Hi. rewrite length_app in Hi.
          cbn [length] in Hi. lia. }
        rewrite list_lookup_middle in Hi by done. injection Hi as ->.
        rewrite decide_True by done. by apply list_elem_of_singleton.
Qed.

Lemma review_count_run (rows : list Row) :
  review_count (P rows) = length (filter reaches_review rows).
Proof.
  induction rows as [|r rows IH] using rev_ind.
  - unfold review_count. rewrite (length_subjects _ _ _ []); [done|constructor|].
    intros s. rewrite (review_typed _ _ _ Hinit []). rewrite elem_of_nil.
    split; [done|]. intros (i & row & Hi & _). by rewrite lookup_nil in Hi.
  - rewrite review_count_snoc, IH, filter_app, length_app.
    f_equal. rewrite filter_cons, filter_nil.
    by destruct (decide (reaches_review r)).
Qed.
End Counts.

Section ReviewerCount.
Variable strptime : string → option date.
Variable now : nat → date.
Variable self0 : Populator.
Hypothesis Hinit : initialised self0.

Local Abbreviation P rows := (process_csv strptime now rows self0).1.

(** The subjects typed [Reviewer] are the reviewers in the cache. *)
Lemma reviewer_typed (rows : list Row) (s : Node) :
  (s, RDF "type", SW "Reviewer") ∈ graph (P rows) ↔
  ∃ key, reviewer_cache (P rows) !! key = Some s.
Proof.
  split.
  - intros (i & row & Hi & Hd)%data_elem; [|done|reflexivity].
    delta_inv Hd; node_eqs. exists key.
    rewrite (cache_row_lookup _ _ _ rows i row id key) by done.
    unfold reviewer_of. by rewrite Hmiss.
  - intros [key Hkey]. by eapply cache_typed.
Qed.

(** The cache holds the keys of the rows that resolved a reviewer. *)
Lemma cache_dom (rows : list Row) :
  dom (reviewer_cache (P rows)) = reviewer_keys rows.
Proof.
  induction rows as [|r rows IH] using rev_ind.
  - unfold process_csv. cbn [process_rows fst].
    destruct Hinit as [_ ->]. by rewrite dom_empty_L.
  - rewrite cache_snoc. unfold reviewer_keys in *.
    rewrite omap_app, list_to_set_app_L, <-IH.
    unfold row_cache, resolved_key. cbn [omap list_omap].
    destruct (r !! "software_id") as [id|];
      [|cbn [list_to_set]; by rewrite (right_id_L ∅ (∪))].
    destruct (reviewer_key r) as [key|];
      [|cbn [list_to_set]; by rewrite (right_id_L ∅ (∪))].
    cbn [list_to_set]. rewrite (right_id_L ∅ (∪)).
    unfold cache_after.
    destruct (reviewer_cache (P rows) !! key) as [u|] eqn:Hc.
    + apply (elem_of_dom_2 (D := gset ReviewerKey)) in Hc. set_solver.
    + rewrite dom_insert_L. set_solver.
Qed.

Lemma reviewer_count_run (rows : list Row) :
  reviewer_count (P rows) = size (reviewer_keys rows).
Proof.
  unfold reviewer_count.
  rewrite (length_subjects _ _ _ (map_to_list (reviewer_cache (P rows))).*2).
  - by rewrite length_fmap, <-cache_dom, size_dom, length_map_to_list.
  - apply NoDup_fmap_2_strong; [|apply NoDup_map_to_list].
    intros [k1 u1] [k2 u2] H1%elem_of_map_to_list H2%elem_of_map_to_list.
    cbn. intros <-. f_equal. by eapply cache_inj.
  - intros s. rewrite reviewer_typed, list_elem_of_fmap. split.
    + intros ([k u] & -> & Hk%elem_of_map_to_list). eauto.
    + intros [k Hk]. exists (k, s). split; [done|].
      by apply elem_of_map_to_list.
Qed.

(** The three counts depend only on the ids, the reviewer keys and the
    rows that reach their review. *)
Lemma print_statistics_run (rows : list Row) :
  print_statistics (P rows) =
  (size (software_ids rows), length (filter reaches_review rows),
   size (reviewer_keys rows)).
Proof.
  unfold print_statistics.
  by rewrite (software_count_run _ _ _ Hinit), (review_count_run _ _ _ Hinit),
    reviewer_count_run.
Qed.
End ReviewerCount.

(** * The claims *)

Lemma NoDup_schema_triples : NoDup schema_triples.
Proof. apply (bool_decide_unpack _). vm_compute. exact I. Qed.

(** C7. The schema triples are written once, by the constructor: the list
    of declarations has no repetition, the graph after construction is that
    list as a set, processing rows keeps all of it, and the schema
    declarations in the final graph are exactly those present after
    construction, however many rows are processed. *)
Theorem schema_written_once (strptime : string → option date) (now : nat → date)
    (rows : list Row) :
  let g := graph (run strptime now rows).1 in
  NoDup schema_triples ∧
  graph __init__ = list_to_set schema_triples ∧
  graph __init__ ⊆ g ∧
  filter (λ t, is_schema t = true) g = graph __init__.
Proof.
  unfold run. generalize initialised_init. generalize __init__.
  intros self0 Hinit. cbv zeta.
  split; [apply NoDup_schema_triples|]. split; [apply Hinit|]. split.
  - intros t Ht. apply elem_of_graph. by left.
  - apply set_eq. intros t. rewrite elem_of_filter. split.
    + intros [Hs Ht]. by apply (schema_elem strptime now self0 rows) in Ht.
    + intros Ht. split; [by eapply initialised_is_schema|].
      apply schema_elem; [by eapply initialised_is_schema|done].
Qed.

(** C9. For a file with no data row the populator is the one the
    constructor built: the graph holds the schema triples and nothing else,
    nothing is printed by the loop, and the counts of Software, Review and
    Reviewer are all zero. *)
Theorem empty_input (strptime : string → option date) (now : nat → date) :
  run strptime now [] = (__init__, []) ∧
  graph (run strptime now []).1 = list_to_set schema_triples ∧
  print_statistics (run strptime now []).1 = (0, 0, 0).
Proof.
  split; [reflexivity|]. split; [apply graph_init|].
  unfold run. generalize initialised_init. generalize __init__.
  intros self0 Hinit.
  rewrite (print_statistics_run _ _ _ Hinit).
  unfold software_ids, reviewer_keys. cbn [omap list_omap list_to_set filter list_filter length].
  by rewrite !size_empty.
Qed.

(** The datatype properties of the schema, read off the list of its
    triples. *)
Lemma schema_datatype_subjects :
  Forall (λ t, predicate t = RDF "type" → object t = OWL "DatatypeProperty" →
               subject t ∈ dt_properties.*1.*1) schema_triples.
Proof. apply (bool_decide_unpack _). vm_compute. exact I. Qed.

Lemma schema_datatype_declared :
  Forall (λ d : Triple,
    (d.1.1, RDF "type", OWL "DatatypeProperty") ∈ schema_triples ∧
    (d.1.1, RDFS "domain", d.1.2) ∈ schema_triples ∧
    (d.1.1, RDFS "range", d.2) ∈ schema_triples ∧
    d.1.2 ∈ classes ∧
    d.2 = (if decide (d.1.1 = SW "data_avaliacao")
           then XSD "date" else XSD "string") ∧
    Forall (λ t, subject t = d.1.1 →
              (predicate t = RDFS "domain" → object t = d.1.2) ∧
              (predicate t = RDFS "range" → object t = d.2)) schema_triples)
    dt_properties.
Proof. apply (bool_decide_unpack _). vm_compute. exact I. Qed.

Lemma NoDup_datatype_properties : NoDup dt_properties.*1.*1.
Proof. apply (bool_decide_unpack _). vm_compute. exact I. Qed.

(** The subjects typed [DatatypeProperty] are the fifteen of the list. *)
Lemma datatype_property_elem (p : Node) :
  (p, RDF "type", OWL "DatatypeProperty") ∈ graph __init__ ↔
  p ∈ dt_properties.*1.*1.
Proof.
  rewrite graph_init, elem_of_list_to_set. split.
  - intros Ht.
    by apply (proj1 (Forall_forall _ _) schema_datatype_subjects _ Ht).
  - intros ([d r] & -> & ([p' d'] & -> & Hd)%list_elem_of_fmap)%list_elem_of_fmap.
    by apply (proj1 (Forall_forall _ _) schema_datatype_declared) in Hd as [? _].
Qed.

Lemma datatype_property_count :
  length (subjects (graph __init__) (RDF "type") (OWL "DatatypeProperty")) = 15.
Proof.
  rewrite (length_subjects _ _ _ dt_properties.*1.*1); [reflexivity| |].
  - apply NoDup_datatype_properties.
  - intros s. symmetry. apply datatype_property_elem.
Qed.

(** C8, as amended. Construction declares fifteen datatype properties;
    each has exactly one domain, one of the three classes, and exactly one
    range, which is [xsd:string] for all of them except [data_avaliacao],
    whose range is [xsd:date]. *)
Theorem fifteen_datatype_properties :
  length (subjects (graph __init__) (RDF "type") (OWL "DatatypeProperty")) = 15 ∧
  ∀ p, (p, RDF "type", OWL "DatatypeProperty") ∈ graph __init__ →
    ∃ d r,
      (∀ x, (p, RDFS "domain", x) ∈ graph __init__ ↔ x = d) ∧
      (∀ x, (p, RDFS "range", x) ∈ graph __init__ ↔ x = r) ∧
      d ∈ classes ∧
      r = (if decide (p = SW "data_avaliacao") then XSD "date" else XSD "string").
Proof.
  split; [apply datatype_property_count|].
  - intros p Hp. apply datatype_property_elem in Hp.
    apply list_elem_of_fmap in Hp as ([p' d] & -> & Hp).
    apply list_elem_of_fmap in Hp as ([pd r] & Heq & Hp). cbn in Heq. subst pd.
    apply (proj1 (Forall_forall _ _) schema_datatype_declared) in Hp
      as (_ & Hd & Hr & Hc & Hrange & Hall).
    cbn [fst snd] in *. exists d, r. rewrite graph_init.
    split; [|split; [|done]].
    + intros x. rewrite elem_of_list_to_set. split; [|by intros ->].
      intros Hx.
      destruct (proj1 (Forall_forall _ _) Hall _ Hx eq_refl) as [Hdom _].
      exact (Hdom eq_refl).
    + intros x. rewrite elem_of_list_to_set. split; [|by intros ->].
      intros Hx.
      destruct (proj1 (Forall_forall _ _) Hall _ Hx eq_refl) as [_ Hran].
      exact (Hran eq_refl).
Qed.

(** C8, as the specification counts the datatype properties, fails: they
    are not fourteen. *)
Lemma fourteen_datatype_properties_fails :
  length (subjects (graph __init__) (RDF "type") (OWL "DatatypeProperty")) ≠ 14.
Proof. rewrite datatype_property_count. discriminate. Qed.

(** A software that is already typed is returned as it is. *)
Lemma software_present_run (id name : string) (pagina : option string)
    (self : Populator) :
  (software_uri id, RDF "type", SW "Software") ∈ graph self →
  _get_or_create_software id name pagina self = (self, inr (software_uri id)).
Proof.
  intros Hin. rewrite _get_or_create_software_run. unfold software_delta.
  rewrite decide_True by done. f_equal. symmetry.
  apply Populator_eq; [by rewrite (right_id_L ∅ (∪))|done].
Qed.

(** C1. Whatever the rows, the rows that share a [software_id] produce one
    Software: the only subject typed [Software] that carries that id is
    [software_<id>]; its [name] and [pagina] triples are the ones of the first
    row with that id (the name defaulting to [Software <id>], the page written
    only when non-empty); and a call of [_get_or_create_software] for a
    software that is already typed returns its identifier and leaves the
    populator as it was, so later rows with another name or page change
    nothing. *)
Theorem software_first_row_wins (strptime : string → option date)
    (now : nat → date) (pre post : list Row) (row : Row) (id : string) :
  row !! "software_id" = Some id →
  (∀ r, r ∈ pre → r !! "software_id" ≠ Some id) →
  let g := graph (run strptime now (pre ++ row :: post)).1 in
  (∀ s, (s, RDF "type", SW "Software") ∈ g ∧ (s, SW "software_id", Lit id) ∈ g
        ↔ s = software_uri id) ∧
  (∀ o, (software_uri id, SW "name", o) ∈ g ↔ o = Lit (name_of row id)) ∧
  (∀ o, (software_uri id, SW "pagina", o) ∈ g
        ↔ ∃ p, row !! "pagina" = Some p ∧ p ≠ "" ∧ o = Lit p) ∧
  (∀ self name pagina,
     (software_uri id, RDF "type", SW "Software") ∈ graph self →
     _get_or_create_software id name pagina self = (self, inr (software_uri id))).
Proof.
  intros Hid Hpre. unfold run. generalize initialised_init. generalize __init__.
  intros self0 Hinit. cbv zeta.
  assert (Hrow : (pre ++ row :: post) !! length pre = Some row)
    by apply list_lookup_middle, eq_refl.
  assert (Hnew : (software_uri id, RDF "type", SW "Software")
                   ∉ graph (process_csv strptime now
                              (take (length pre) (pre ++ row :: post)) self0).1).
  { rewrite take_app_length. by apply software_new_before. }
  split; [|split; [|split]].
  - intros s. split.
    + intros [_ (id' & -> & Heq & _)%software_id_elem]; [|done].
      unfold Lit in Heq. by injection Heq as <-.
    + intros ->. split.
      * apply software_typed; [done|]. exists row, id. split; [|done].
        by eapply list_elem_of_lookup_2.
      * eapply row_delta_in_graph; [exact Hrow|].
        apply elem_of_row_delta. exists id. split; [done|]. left.
        apply elem_of_software_delta. auto.
  - intros o. rewrite software_name_elem by done. split.
    + intros (i & row' & id' & Hi & Hid' & Hnew' & <-%software_uri_inj & ->).
      by destruct (first_row_index strptime now self0 Hinit pre post row row' id i)
        as [_ ->].
    + intros ->. exists (length pre), row, id. done.
  - intros o. rewrite software_pagina_elem by done. split.
    + intros (i & row' & id' & p & Hi & Hid' & Hnew' & Hp & Hne
              & <-%software_uri_inj & ->).
      destruct (first_row_index strptime now self0 Hinit pre post row row' id i)
        as [_ ->]; [done..|]. eauto.
    + intros (p & Hp & Hne & ->). exists (length pre), row, id, p. done.
  - intros self name pagina. apply software_present_run.
Qed.

(** A cached reviewer is returned as it is; a new one is numbered after
    the size of the cache. *)
Lemma reviewer_hit_run (a b c d : string) (u : Node) (self : Populator) :
  reviewer_cache self !! (a, b, c, d) = Some u →
  _get_or_create_reviewer a b c d self = (self, inr u).
Proof.
  intros Hc. rewrite _get_or_create_reviewer_run.
  unfold reviewer_delta, cache_after, reviewer_of. rewrite Hc.
  f_equal. symmetry. apply Populator_eq; [by rewrite (right_id_L ∅ (∪))|done].
Qed.

Lemma reviewer_miss_run (a b c d : string) (self : Populator) :
  reviewer_cache self !! (a, b, c, d) = None →
  (_get_or_create_reviewer a b c d self).2 =
  inr (reviewer_uri (size (reviewer_cache self) + 1)).
Proof.
  intros Hc. rewrite _get_or_create_reviewer_run. cbn [snd].
  unfold reviewer_of. by rewrite Hc.
Qed.

(** C2. Two complete rows with the same (setor, porte, frequencia,
    frequencia_complementar) have their reviews linked by [madeBy] to one and
    the same node, which is typed [Reviewer], and to no other; a lookup of a
    tuple already in the cache returns the cached identifier and leaves graph
    and cache as they were; a lookup of a new tuple returns [reviewer_<n>]
    with [n] the size of the cache plus one. *)
Theorem reviewer_shared (strptime : string → option date) (now : nat → date)
    (rows : list Row) (i j : nat) (ri rj : Row) (key : ReviewerKey) :
  rows !! i = Some ri → rows !! j = Some rj →
  complete ri → complete rj →
  reviewer_key ri = Some key → reviewer_key rj = Some key →
  let g := graph (run strptime now rows).1 in
  (∃ u, (u, RDF "type", SW "Reviewer") ∈ g ∧
        (∀ o, (review_uri (S i), SW "madeBy", o) ∈ g ↔ o = u) ∧
        (∀ o, (review_uri (S j), SW "madeBy", o) ∈ g ↔ o = u)) ∧
  (∀ self a b c d u,
     reviewer_cache self !! (a, b, c, d) = Some u →
     _get_or_create_reviewer a b c d self = (self, inr u)) ∧
  (∀ self a b c d,
     reviewer_cache self !! (a, b, c, d) = None →
     (_get_or_create_reviewer a b c d self).2 =
     inr (reviewer_uri (size (reviewer_cache self) + 1))).
Proof.
  intros Hi Hj Hci Hcj Hki Hkj. unfold run.
  generalize initialised_init. generalize __init__.
  intros self0 Hinit. cbv zeta.
  split; [|split; [intros; by apply reviewer_hit_run
                  |intros; by apply reviewer_miss_run]].
  assert (∃ id, ri !! "software_id" = Some id) as [idi Hidi].
  { apply complete_fields in Hci as (id & ? & ? & ? & ? & ? & ? & ? & ? & ? & ?
                                      & ? & _). eauto. }
  assert (∃ id, rj !! "software_id" = Some id) as [idj Hidj].
  { apply complete_fields in Hcj as (id & ? & ? & ? & ? & ? & ? & ? & ? & ? & ?
                                      & ? & _). eauto. }
  pose proof (cache_row_lookup strptime now self0 rows i ri idi key Hi Hidi Hki)
    as Hui.
  pose proof (cache_row_lookup strptime now self0 rows j rj idj key Hj Hidj Hkj)
    as Huj.
  set (ci := reviewer_cache (process_csv strptime now (take i rows) self0).1) in *.
  set (cj := reviewer_cache (process_csv strptime now (take j rows) self0).1) in *.
  exists (reviewer_of ci key). split; [by eapply cache_typed|].
  assert (Heq : reviewer_of cj key = reviewer_of ci key) by congruence.
  split; intros o; rewrite madeBy_elem by done; split.
  - intros (i' & r' & k' & Hi' & _ & Hk' & <-%review_uri_inj%(inj S) & ->).
    assert (r' = ri) as -> by congruence.
    assert (k' = key) as -> by congruence. done.
  - intros ->. exists i, ri, key. done.
  - intros (j' & r' & k' & Hj' & _ & Hk' & <-%review_uri_inj%(inj S) & ->).
    assert (r' = rj) as -> by congruence.
    assert (k' = key) as -> by congruence. done.
  - intros ->. exists j, rj, key. done.
Qed.

(** For a complete row, the value of a required string attribute is the
    cell of that column. *)
Lemma review_delta_column (strptime : string → option date) (now : nat → date)
    (n : nat) (row : Row) (sw rv : Node) (s column : string) (o : Node) :
  complete row →
  column ∈ ["fonte"; "recomendacao"; "comentario"; "vantagem"; "desvantagem"] →
  (review_uri n, SW column, o) ∈ review_delta strptime now n row sw rv s ↔
  Some o = Lit <$> row !! column.
Proof.
  intros (id & a & b & c & d & s' & f & r & co & v & de & _ & _ & _ & _ & _ & _
          & Hf & Hr & Hco & Hv & Hde)%complete_fields Hcol.
  rewrite elem_of_review_delta.
  assert (Hcases : column = "fonte" ∨ column = "recomendacao" ∨
                   column = "comentario" ∨ column = "vantagem" ∨
                   column = "desvantagem").
  { repeat (apply elem_of_cons in Hcol as [->|Hcol]; [tauto|]).
    by apply elem_of_nil in Hcol. }
  split.
  - intros H.
    destruct H as [H|(? & ? & [H|(? & ? & [H|[H|(? & ? & [H|(? & ? & [H|
      (? & ? & [H|[(? & ? & ? & H)|[(? & ? & ? & H)|[H|H]]]])])])]])])];
      destruct Hcases as [->|[->|[->|[->| ->]]]]; node_eqs;
      match goal with
      | H1 : row !! ?k = Some ?x |- context [row !! ?k] => by rewrite H1
      end.
  - destruct Hcases as [->|[->|[->|[->| ->]]]];
      rewrite ?Hf, ?Hr, ?Hco, ?Hv, ?Hde; cbn [fmap option_fmap option_map];
      intros [= ->]; right; exists f; (split; [done|]); eauto 30.
Qed.

(** A filter that keeps everything. *)
Lemma filter_all {A : Type} (Q : A → Prop) `{!∀ x, Decision (Q x)} (l : list A) :
  Forall Q l → filter Q l = l.
Proof.
  induction 1 as [|x l Hx _ IH]; [done|].
  by rewrite filter_cons_True, IH.
Qed.

Section ReviewTriples.
Variable strptime : string → option date.
Variable now : nat → date.
Variable self0 : Populator.
Hypothesis Hinit : initialised self0.

Local Abbreviation P rows := (process_csv strptime now rows self0).1.

(** The triples about the review of a row that reaches it: the ones the
    review part of the loop body wrote for that row. *)
Lemma review_triples_elem (rows : list Row) (i : nat) (row : Row)
    (id s : string) (key : ReviewerKey) (p o : Node) :
  rows !! i = Some row →
  row !! "software_id" = Some id →
  reviewer_key row = Some key →
  row !! "data_avaliacao" = Some s →
  (review_uri (S i), p, o) ∈ graph (P rows) ↔
  (review_uri (S i), p, o)
    ∈ review_delta strptime now (S i) row (software_uri id)
        (reviewer_of (reviewer_cache (P (take i rows))) key) s.
Proof.
  intros Hi Hid Hkey Hs. rewrite review_subject by done. split.
  - intros (row' & Hi' & Hd'). assert (row' = row) as -> by congruence.
    apply elem_of_row_delta in Hd'
      as (id' & Hid' & [Hsw|(key' & Hkey' & [Hrv|(s' & Hs' & Hrev)])]).
    + apply elem_of_software_delta in Hsw as (_ & [H|[H|[H|(? & _ & _ & H)]]]);
        node_eqs.
    + apply elem_of_reviewer_delta in Hrv as (_ & Hrv). cbv zeta in Hrv.
      destruct Hrv as [H|[H|[H|[H|H]]]]; node_eqs.
    + congruence.
  - intros Hrev. exists row. split; [done|].
    apply elem_of_row_delta. exists id. split; [done|]. right.
    exists key. split; [done|]. right. eauto.
Qed.

Lemma review_date_elem (rows : list Row) (i : nat) (row : Row) (s : string)
    (o : Node) :
  rows !! i = Some row →
  complete row →
  row !! "data_avaliacao" = Some s →
  (review_uri (S i), SW "data_avaliacao", o) ∈ graph (P rows) ↔
  o = DateLit (date_of strptime now (S i) s).
Proof.
  intros Hi Hc Hs.
  pose proof Hc as (id & a & b & c & d & s' & f & r & co & v & de & Hid & Ha
                    & Hb & Hcc & Hd & _ & Hf & Hr & _)%complete_fields.
  rewrite (review_triples_elem rows i row id s (a, b, c, d))
    by (done || by apply reviewer_key_Some).
  rewrite elem_of_review_delta. split.
  - intros H.
    destruct H as [H|(? & ? & [H|(? & ? & [H|[H|(? & ? & [H|(? & ? & [H|
      (? & ? & [H|[(? & ? & ? & H)|[(? & ? & ? & H)|[H|H]]]])])])]])])];
      node_eqs; done.
  - intros ->. right. exists f. split; [done|]. right. exists r.
    split; [done|]. right. by left.
Qed.
End ReviewTriples.

(** C3. When every row has every required column, the graph holds as many
    subjects typed [Review] as there are rows, which is the count
    [print_statistics] reports; no row is reported as skipped; and the triples
    about [review_<i>] are exactly those the loop body wrote for row [i]: each
    string attribute is the cell of that row, the date is that row's, and
    nothing comes from another row. *)
Theorem reviews_one_per_row (strptime : string → option date) (now : nat → date)
    (rows : list Row) :
  Forall complete rows →
  let r := run strptime now rows in
  review_count r.1 = length rows ∧
  (print_statistics r.1).1.2 = length rows ∧
  r.2 = [] ∧
  ∀ i row, rows !! i = Some row →
    ∃ id key s,
      row !! "software_id" = Some id ∧ reviewer_key row = Some key ∧
      row !! "data_avaliacao" = Some s ∧
      (∀ p o, (review_uri (S i), p, o) ∈ graph r.1 ↔
              (review_uri (S i), p, o)
                ∈ review_delta strptime now (S i) row (software_uri id)
                    (reviewer_of
                       (reviewer_cache (run strptime now (take i rows)).1) key)
                    s) ∧
      (∀ column o,
         column ∈ ["fonte"; "recomendacao"; "comentario"; "vantagem";
                   "desvantagem"] →
         (review_uri (S i), SW column, o) ∈ graph r.1 ↔
         Some o = Lit <$> row !! column) ∧
      (∀ o, (review_uri (S i), SW "data_avaliacao", o) ∈ graph r.1 ↔
            o = DateLit (date_of strptime now (S i) s)).
Proof.
  intros Hall. unfold run. generalize initialised_init. generalize __init__.
  intros self0 Hinit. cbv zeta.
  assert (Hcount : review_count (process_csv strptime now rows self0).1
                   = length rows).
  { rewrite (review_count_run _ _ _ Hinit), filter_all; [done|].
    eapply Forall_impl; [exact Hall|]. apply complete_reaches_review. }
  split; [done|]. split; [done|]. split.
  { destruct (process_csv strptime now rows self0).2 as [|l out] eqn:Hout;
      [done|].
    assert (Hl : l ∈ (process_csv strptime now rows self0).2)
      by (rewrite Hout; by left).
    apply elem_of_out in Hl as (i & row & Hi & Hl).
    rewrite row_result_complete in Hl.
    - by apply elem_of_nil in Hl.
    - by apply (proj1 (Forall_forall _ _) Hall), list_elem_of_lookup_2 with i. }
  intros i row Hi.
  assert (Hc : complete row)
    by (by apply (proj1 (Forall_forall _ _) Hall), list_elem_of_lookup_2 with i).
  pose proof Hc as (id & a & b & c & d & s & f & r & co & v & de & Hid & Ha & Hb
                    & Hcc & Hd & Hs & _)%complete_fields.
  assert (Hkey : reviewer_key row = Some (a, b, c, d))
    by (by apply reviewer_key_Some).
  exists id, (a, b, c, d), s. split; [done|]. split; [done|]. split; [done|].
  split; [|split].
  - intros p o.
    by apply (review_triples_elem strptime now self0 Hinit rows i row id s
                (a, b, c, d) p o).
  - intros column o Hcol.
    rewrite (review_triples_elem strptime now self0 Hinit rows i row id s
               (a, b, c, d)) by done.
    by apply review_delta_column.
  - intros o. by apply (review_date_elem strptime now self0 Hinit rows i row s o).
Qed.

(** C4, as amended. Whatever the rows, skipped ones included, a subject
    typed [Review] is [review_<i>] for a row [i] of the file; it is the object
    of at most one [hasReview] triple and the subject of at most one [madeBy]
    triple; and it has one of each exactly when its row has every required
    column.  (A row skipped after its Review was typed leaves a Review with
    neither.) *)
Theorem review_links (strptime : string → option date) (now : nat → date)
    (rows : list Row) (s : Node) :
  let g := graph (run strptime now rows).1 in
  (s, RDF "type", SW "Review") ∈ g →
  ∃ i row, rows !! i = Some row ∧ s = review_uri (S i) ∧
    (∀ a b, (a, SW "hasReview", s) ∈ g → (b, SW "hasReview", s) ∈ g → a = b) ∧
    (∀ a b, (s, SW "madeBy", a) ∈ g → (s, SW "madeBy", b) ∈ g → a = b) ∧
    ((∃ a, (a, SW "hasReview", s) ∈ g) ↔ complete row) ∧
    ((∃ a, (s, SW "madeBy", a) ∈ g) ↔ complete row).
Proof.
  unfold run. generalize initialised_init. generalize __init__.
  intros self0 Hinit. cbv zeta.
  intros (i & row & Hi & Hr & ->)%review_typed; [|done].
  exists i, row. split; [done|]. split; [done|].
  split; [|split; [|split]].
  - intros a b (i1 & r1 & id1 & Hi1 & _ & Hid1 & -> & <-%review_uri_inj%(inj S))
             %hasReview_elem
             (i2 & r2 & id2 & Hi2 & _ & Hid2 & -> & <-%review_uri_inj%(inj S))
             %hasReview_elem; [|done..].
    congruence.
  - intros a b (i1 & r1 & k1 & Hi1 & _ & Hk1 & <-%review_uri_inj%(inj S) & ->)
             %madeBy_elem
             (i2 & r2 & k2 & Hi2 & _ & Hk2 & <-%review_uri_inj%(inj S) & ->)
             %madeBy_elem; [|done..].
    congruence.
  - split.
    + intros [a (i1 & r1 & id1 & Hi1 & Hc & _ & _ & <-%review_uri_inj%(inj S))
                %hasReview_elem]; [|done]. congruence.
    + intros Hc. pose proof Hc as (id & ? & ? & ? & ? & ? & ? & ? & ? & ? & ?
                                   & Hid & _)%complete_fields.
      exists (software_uri id). apply hasReview_elem; [done|].
      exists i, row, id. done.
  - split.
    + intros [a (i1 & r1 & k1 & Hi1 & Hc & _ & <-%review_uri_inj%(inj S) & _)
                %madeBy_elem]; [|done]. congruence.
    + intros Hc. pose proof Hc as (id & a & b & c & d & ? & ? & ? & ? & ? & ?
                                   & _ & Ha & Hb & Hcc & Hd & _)%complete_fields.
      eexists. apply madeBy_elem; [done|].
      exists i, row, (a, b, c, d). split; [done|]. split; [done|].
      split; [by apply reviewer_key_Some|done].
Qed.

(** C4, as the specification states it, fails on a file whose only row
    lacks [fonte]: the row is skipped after its Review was typed, and that
    Review has no owner. *)
Lemma review_without_links :
  let g := graph (run strptime_ymd example_now [row_without_fonte]).1 in
  ¬ (∀ s, (s, RDF "type", SW "Review") ∈ g →
          (∃ a, (a, SW "hasReview", s) ∈ g ∧
                ∀ b, (b, SW "hasReview", s) ∈ g → b = a) ∧
          (∃ a, (s, SW "madeBy", a) ∈ g ∧
                ∀ b, (s, SW "madeBy", b) ∈ g → b = a)).
Proof.
  unfold run. generalize initialised_init. generalize __init__.
  intros self0 Hinit. cbv zeta. intros Hclaim.
  destruct (Hclaim (review_uri 1)) as [(a & Ha & _) _].
  - apply review_typed; [done|]. exists 0, row_without_fonte.
    split; [reflexivity|]. split; [|reflexivity].
    apply (bool_decide_unpack _). vm_compute. exact I.
  - apply hasReview_elem in Ha as (i & row & id & Hi & Hc & _); [|done].
    assert (i = 0) as ->
      by (apply lookup_lt_Some in Hi; cbn [length] in Hi; lia).
    change (Some row_without_fonte = Some row) in Hi. injection Hi as <-.
    revert Hc. apply (bool_decide_eq_false_1 _). vm_compute. reflexivity.
Qed.

(** A report is about the row that was skipped, and is never about a date. *)
Lemma report_row (n : nat) (r : Exception + ()) (l : Line) :
  l ∈ report n r → line_row l = n.
Proof.
  destruct r as [[k|]|[]]; cbn [report].
  - by intros ->%list_elem_of_singleton.
  - by intros ->%list_elem_of_singleton.
  - by intros ?%elem_of_nil.
Qed.

Lemma row_result_not_ValueError (row : Row) : row_result row ≠ inl ValueError.
Proof. unfold row_result. by destruct (first_missing row). Qed.

(** C5. A complete row whose [data_avaliacao] the date parser rejects is
    not skipped: processing it raises nothing, its Review is typed, its only
    [data_avaliacao] triple is the date-typed literal of the current date, and
    no line is printed for it; and no row ever surfaces the parser's
    [ValueError]. *)
Theorem invalid_date_falls_back (strptime : string → option date)
    (now : nat → date) (rows : list Row) (i : nat) (row : Row) (s : string) :
  rows !! i = Some row →
  complete row →
  row !! "data_avaliacao" = Some s →
  strptime s = None →
  let r := run strptime now rows in
  (review_uri (S i), RDF "type", SW "Review") ∈ graph r.1 ∧
  (∀ o, (review_uri (S i), SW "data_avaliacao", o) ∈ graph r.1
        ↔ o = DateLit (now (S i))) ∧
  (∀ l, l ∈ r.2 → line_row l ≠ S i) ∧
  (∀ self, (process_row strptime now (S i) row self).2 = inr ()) ∧
  (∀ n row' self, (process_row strptime now n row' self).2 ≠ inl ValueError).
Proof.
  intros Hi Hc Hs Hparse. unfold run.
  generalize initialised_init. generalize __init__.
  intros self0 Hinit. cbv zeta.
  split; [|split; [|split; [|split]]].
  - apply review_typed; [done|]. exists i, row.
    split; [done|]. split; [by apply complete_reaches_review|done].
  - intros o.
    rewrite (review_date_elem strptime now self0 Hinit rows i row s o) by done.
    unfold date_of. by rewrite Hparse.
  - intros l (j & row' & Hj & Hl)%elem_of_out Heq.
    apply report_row in Hl as Hn. rewrite Hn in Heq. injection Heq as ->.
    assert (row' = row) as -> by congruence.
    rewrite row_result_complete in Hl by done. by apply elem_of_nil in Hl.
  - intros self. rewrite process_row_run. cbn [snd].
    by apply row_result_complete.
  - intros n row' self. rewrite process_row_run. cbn [snd].
    apply row_result_not_ValueError.
Qed.




(** The clock is read only for a date that does not parse. *)
Lemma row_delta_clock (strptime : string → option date) (now1 now2 : nat → date)
    (self : Populator) (n : nat) (row : Row) :
  (∀ s, row !! "data_avaliacao" = Some s → is_Some (strptime s)) →
  row_delta strptime now1 self n row = row_delta strptime now2 self n row.
Proof.
  intros Hvalid. unfold row_delta.
  destruct (row !! "software_id") as [id|]; [|done].
  destruct (reviewer_key row) as [key|]; [|done].
  destruct (row !! "data_avaliacao") as [s|]; [|done].
  destruct (Hvalid s eq_refl) as [d Hd].
  unfold review_delta, date_of. by rewrite Hd.
Qed.

(** C10. Two runs over the same rows, under any two clocks, give the same
    graph, the same cache and the same printed lines, provided every
    [data_avaliacao] present in the rows parses: the clock is read only by the
    fallback for a date that does not parse. *)
Theorem deterministic_given_valid_dates (strptime : string → option date)
    (now1 now2 : nat → date) (rows : list Row) :
  (∀ row s, row ∈ rows → row !! "data_avaliacao" = Some s →
            is_Some (strptime s)) →
  run strptime now1 rows = run strptime now2 rows.
Proof.
  unfold run, process_csv. generalize __init__. generalize 1.
  induction rows as [|row rows IH]; intros n self Hvalid; [done|].
  cbn [process_rows]. rewrite !process_row_run.
  rewrite (row_delta_clock strptime now1 now2).
  - rewrite IH; [done|]. intros r s Hr. apply Hvalid. by right.
  - intros s. apply Hvalid. by left.
Qed.

(** * The claims at concrete inputs *)

Lemma complete_review_row : complete review_row.
Proof. apply (bool_decide_unpack _). vm_compute. exact I. Defined.

Lemma complete_renamed_row : complete renamed_row.
Proof. apply (bool_decide_unpack _). vm_compute. exact I. Defined.

Lemma complete_bad_date_row : complete bad_date_row.
Proof. apply (bool_decide_unpack _). vm_compute. exact I. Defined.

(** C1 at a file of two rows about software 7: the name stays the one the
    first row gave. *)
Lemma software_first_row_wins_witness :
  let g := graph (run strptime_ymd example_now
                    ([] ++ review_row :: [renamed_row])).1 in
  (software_uri "7", SW "name", Lit "Argus") ∈ g ∧
  (software_uri "7", SW "name", Lit "Argos") ∉ g.
Proof.
  destruct (software_first_row_wins strptime_ymd example_now [] [renamed_row]
              review_row "7") as (_ & Hname & _).
  - vm_compute. reflexivity.
  - intros r Hr. by apply elem_of_nil in Hr.
  - split.
    + apply Hname. vm_compute. reflexivity.
    + intros Hin. apply Hname in Hin. vm_compute in Hin. discriminate Hin.
Defined.

(** C2 at a file whose two rows describe the same reviewer. *)
Lemma reviewer_shared_witness :
  let g := graph (run strptime_ymd example_now [review_row; renamed_row]).1 in
  ∃ u, (u, RDF "type", SW "Reviewer") ∈ g ∧
       (review_uri 1, SW "madeBy", u) ∈ g ∧ (review_uri 2, SW "madeBy", u) ∈ g.
Proof.
  destruct (reviewer_shared strptime_ymd example_now [review_row; renamed_row]
              0 1 review_row renamed_row ("varejo", "medio", "diaria", "semanal"))
    as ((u & Hu & H1 & H2) & _).
  - reflexivity.
  - reflexivity.
  - apply complete_review_row.
  - apply complete_renamed_row.
  - vm_compute. reflexivity.
  - vm_compute. reflexivity.
  - exists u. split; [exact Hu|]. split; [by apply H1|by apply H2].
Defined.

(** C3 at a file of two complete rows. *)
Lemma reviews_one_per_row_witness :
  review_count (run strptime_ymd example_now [review_row; bad_date_row]).1 = 2.
Proof.
  destruct (reviews_one_per_row strptime_ymd example_now
              [review_row; bad_date_row]) as (Hcount & _).
  - constructor; [apply complete_review_row|].
    constructor; [apply complete_bad_date_row|]. constructor.
  - exact Hcount.
Defined.

(** C4 at a file of one complete row: its review has an owner. *)
Lemma review_links_witness :
  ∃ a, (a, SW "hasReview", review_uri 1)
         ∈ graph (run strptime_ymd example_now [review_row]).1.
Proof.
  destruct (review_links strptime_ymd example_now [review_row] (review_uri 1))
    as (i & row & Hi & Heq & _ & _ & Hhas & _).
  - unfold run.
    apply (proj2 (review_typed strptime_ymd example_now __init__
                    initialised_init [review_row] (review_uri 1))).
    exists 0, review_row. split; [reflexivity|]. split; [|reflexivity].
    apply complete_reaches_review, complete_review_row.
  - apply Hhas. apply review_uri_inj in Heq. injection Heq as <-.
    injection Hi as <-. apply complete_review_row.
Defined.

(** C5 at a row dated 2024-13-40. *)
Lemma invalid_date_falls_back_witness :
  (review_uri 1, SW "data_avaliacao", DateLit (Date 2026 11 4))
    ∈ graph (run strptime_ymd example_now [bad_date_row]).1.
Proof.
  destruct (invalid_date_falls_back strptime_ymd example_now [bad_date_row] 0
              bad_date_row "2024-13-40") as (_ & Hdate & _).
  - reflexivity.
  - apply complete_bad_date_row.
  - vm_compute. reflexivity.
  - vm_compute. reflexivity.
  - by apply Hdate.
Defined.


(** C10 at two clocks and a file whose dates all parse. *)
Lemma deterministic_given_valid_dates_witness :
  run strptime_ymd example_now [review_row; renamed_row] =
  run strptime_ymd (λ _, Date 1999 12 31) [review_row; renamed_row].
Proof.
  apply deterministic_given_valid_dates.
  intros row s Hrow Hs.
  apply elem_of_cons in Hrow as [->|Hrow];
    [|apply elem_of_cons in Hrow as [->|Hrow]; [|by apply elem_of_nil in Hrow]].
  - vm_compute in Hs. injection Hs as <-. vm_compute. eauto.
  - vm_compute in Hs. injection Hs as <-. vm_compute. eauto.
Defined.

(** * Further properties of the populator *)

(** ** Counts and printed lines of any file *)




Lemma first_missing_None (row : Row) : first_missing row = None ↔ complete row.
Proof.
  split; [|apply first_missing_complete].
  unfold first_missing, complete. intros Hhead.
  apply head_None in Hhead. apply Forall_forall. intros k Hk.
  destruct (row !! k) eqn:Hrow; [done|].
  assert (Hin : k ∈ filter (λ k, row !! k = None) required)
    by (by apply list_elem_of_filter).
  rewrite Hhead in Hin. by apply elem_of_nil in Hin.
Qed.

Lemma length_skip_line (i : nat) (row : Row) :
  length (skip_line i row) = if decide (complete row) then 0 else 1.
Proof.
  unfold skip_line. destruct (first_missing row) as [k|] eqn:Hk.
  - rewrite decide_False; [done|]. intros Hc%first_missing_None. congruence.
  - rewrite decide_True; [done|]. by apply first_missing_None.
Qed.

Lemma length_join_skip (n : nat) (rows : list Row) :
  length (mjoin (imap (λ i row, skip_line (n + i) row) rows)) =
  length (filter (λ row, ¬ complete row) rows).
Proof.
  revert n. induction rows as [|row rows IH]; intros n; [done|].
  cbn [imap].
  change (mjoin (?x :: ?l)) with (x ++ mjoin l).
  rewrite length_app, length_skip_line.
  replace (imap ((λ i row, skip_line (n + i) row) ∘ S) rows)
    with (imap (λ i row, skip_line (S n + i) row) rows).
  - rewrite (IH (S n)). destruct (decide (complete row)) as [Hc|Hc].
    + by rewrite filter_cons_False by tauto.
    + by rewrite filter_cons_True by done.
  - apply imap_ext. intros i x _. cbn. f_equal. lia.
Qed.

Lemma length_skip_lines (rows : list Row) :
  length (mjoin (imap skip_line rows)) =
  length (filter (λ row, ¬ complete row) rows).
Proof. exact (length_join_skip 0 rows). Qed.

(** The loop prints the line of each row, in the order of the file. *)
Lemma process_csv_skip_lines (strptime : string → option date)
    (now : nat → date) (rows : list Row) (self : Populator) :
  (process_csv strptime now rows self).2 = mjoin (imap skip_line rows).
Proof.
  unfold process_csv. rewrite process_rows_out. f_equal.
  apply imap_ext. intros i row _. cbn. unfold skip_line, row_result.
  by destruct (first_missing row).
Qed.

Lemma filter_nil_Forall {A : Type} (Q : A → Prop) `{!∀ x, Decision (Q x)}
    (l : list A) :
  filter (λ x, ¬ Q x) l = [] ↔ Forall Q l.
Proof.
  rewrite Forall_forall. split.
  - intros Hnil x Hx. destruct (decide (Q x)) as [|Hq]; [done|].
    assert (Hin : x ∈ filter (λ x, ¬ Q x) l) by (by apply list_elem_of_filter).
    rewrite Hnil in Hin. by apply elem_of_nil in Hin.
  - intros Hall. destruct (filter (λ x, ¬ Q x) l) as [|x l'] eqn:Hf; [done|].
    assert (Hin : x ∈ filter (λ x, ¬ Q x) l) by (rewrite Hf; by left).
    apply list_elem_of_filter in Hin as [Hq Hx]. destruct Hq. by apply Hall.
Qed.

(** X2. The loop prints, in the order of the file, one line for each row
    that lacks a required column and nothing else: the line names the row
    number and the first column the row lacks, in the order the loop body
    reads them ([data_avaliacao] before [fonte]).  The number of lines is the
    number of incomplete rows, and nothing is printed exactly when every row
    is complete. *)
Theorem printed_lines_of_any_file (strptime : string → option date)
    (now : nat → date) (rows : list Row) :
  let out := (run strptime now rows).2 in
  out = mjoin (imap skip_line rows) ∧
  length out = length (filter (λ row, ¬ complete row) rows) ∧
  (out = [] ↔ Forall complete rows).
Proof.
  cbv zeta. unfold run. rewrite process_csv_skip_lines.
  split; [done|]. split; [apply length_skip_lines|].
  by rewrite <-length_zero_iff_nil, length_skip_lines, length_zero_iff_nil,
    filter_nil_Forall.
Qed.

(** ** Reviewers *)

Section ReviewerFacts.
Variable strptime : string → option date.
Variable now : nat → date.
Variable self0 : Populator.
Hypothesis Hinit : initialised self0.

Local Abbreviation P rows := (process_csv strptime now rows self0).1.

(** Every number up to the size of the cache names a cached reviewer. *)
Lemma cache_numbers (rows : list Row) (k : nat) :
  (1 ≤ k ≤ size (reviewer_cache (P rows)))%nat →
  ∃ key, reviewer_cache (P rows) !! key = Some (reviewer_uri k).
Proof.
  revert k. induction rows as [|r rows IH] using rev_ind; intros k.
  - unfold process_csv. cbn [process_rows fst].
    destruct Hinit as [_ ->]. rewrite map_size_empty. lia.
  - rewrite cache_snoc. unfold row_cache.
    destruct (r !! "software_id") as [id|]; [|apply IH].
    destruct (reviewer_key r) as [key'|]; [|apply IH].
    unfold cache_after.
    destruct (reviewer_cache (P rows) !! key') as [u'|] eqn:Hc; [apply IH|].
    rewrite map_size_insert_None by done. intros Hk.
    destruct (decide (k = size (reviewer_cache (P rows)) + 1)) as [->|Hne].
    + exists key'. by rewrite lookup_insert_eq.
    + destruct (IH k) as [key Hkey]; [lia|]. exists key.
      rewrite lookup_insert_ne; [done|]. intros ->. congruence.
Qed.

(** A cached reviewer was created by the first row that resolved its
    key, and numbered after the size of the cache at that row. *)
Lemma cache_origin (rows : list Row) (key : ReviewerKey) (u : Node) :
  reviewer_cache (P rows) !! key = Some u →
  ∃ i row id, rows !! i = Some row ∧ row !! "software_id" = Some id ∧
    reviewer_key row = Some key ∧
    reviewer_cache (P (take i rows)) !! key = None ∧
    u = reviewer_uri (size (reviewer_cache (P (take i rows))) + 1).
Proof.
  induction rows as [|r rows IH] using rev_ind.
  - unfold process_csv. cbn [process_rows fst].
    destruct Hinit as [_ ->]. by rewrite lookup_empty.
  - assert (Hold : reviewer_cache (P rows) !! key = Some u →
      ∃ i row id, (rows ++ [r]) !! i = Some row ∧
        row !! "software_id" = Some id ∧ reviewer_key row = Some key ∧
        reviewer_cache (P (take i (rows ++ [r]))) !! key = None ∧
        u = reviewer_uri (size (reviewer_cache (P (take i (rows ++ [r])))) + 1)).
    { intros (i & row & id & Hi & Hid & Hkey & Hmiss & ->)%IH.
      pose proof (lookup_lt_Some _ _ _ Hi) as Hlt.
      exists i, row, id. rewrite take_app_le by lia.
      split; [by apply lookup_app_l_Some|done]. }
    rewrite cache_snoc. unfold row_cache.
    destruct (r !! "software_id") as [id|] eqn:Hid; [|done].
    destruct (reviewer_key r) as [key'|] eqn:Hkey; [|done].
    unfold cache_after.
    destruct (reviewer_cache (P rows) !! key') as [u'|] eqn:Hc; [done|].
    rewrite lookup_insert. case_decide as Hk; [|done].
    subst key'. intros [= <-]. exists (length rows), r, id.
    rewrite take_app_length. by rewrite list_lookup_middle.
Qed.

(** The triples that give a reviewer one of its four attributes. *)
Lemma reviewer_attribute_elem (rows : list Row) (column : string)
    (f : ReviewerKey → string) (s o : Node) :
  (column, f) ∈ [ ("setor", λ key : ReviewerKey, key.1.1.1);
                  ("porte", λ key : ReviewerKey, key.1.1.2);
                  ("frequencia", λ key : ReviewerKey, key.1.2);
                  ("frequencia_complementar", λ key : ReviewerKey, key.2) ] →
  (s, SW column, o) ∈ graph (P rows) ↔
  ∃ key, reviewer_cache (P rows) !! key = Some s ∧ o = Lit (f key).
Proof.
  intros Hcol.
  assert (Hcases : (column, f) = ("setor", λ key : ReviewerKey, key.1.1.1) ∨
                   (column, f) = ("porte", λ key : ReviewerKey, key.1.1.2) ∨
                   (column, f) = ("frequencia", λ key : ReviewerKey, key.1.2) ∨
                   (column, f) = ("frequencia_complementar",
                                  λ key : ReviewerKey, key.2)).
  { repeat (apply elem_of_cons in Hcol as [->|Hcol]; [tauto|]).
    by apply elem_of_nil in Hcol. }
  split.
  - intros (i & row & Hi & Hd)%data_elem; [|done|].
    + destruct Hcases as [[= -> ->]|[[= -> ->]|[[= -> ->]|[= -> ->]]]];
        delta_inv Hd; node_eqs; exists key;
        (split; [|done]);
        rewrite (cache_row_lookup _ _ _ rows i row id key) by done;
        unfold reviewer_of; by rewrite Hmiss.
    + by destruct Hcases as [[= -> ->]|[[= -> ->]|[[= -> ->]|[= -> ->]]]].
  - intros (key & (i & row & id & Hi & Hid & Hkey & Hmiss & ->)%cache_origin & ->).
    eapply row_delta_in_graph; [done|].
    apply elem_of_row_delta. exists id. split; [done|]. right.
    exists key. split; [done|]. left.
    apply elem_of_reviewer_delta. split; [done|]. cbv zeta.
    destruct Hcases as [[= -> ->]|[[= -> ->]|[[= -> ->]|[= -> ->]]]]; tauto.
Qed.
End ReviewerFacts.

(** X3. Reviewers are numbered without gaps: after any file the subjects
    typed [Reviewer] are [reviewer_1] to [reviewer_n], [n] the size of the
    cache, which is the number of distinct reviewer tuples the rows resolved
    and the count [print_statistics] reports. *)
Theorem reviewers_numbered_densely (strptime : string → option date)
    (now : nat → date) (rows : list Row) :
  let r := (run strptime now rows).1 in
  reviewer_count r = size (reviewer_cache r) ∧
  size (reviewer_cache r) = size (reviewer_keys rows) ∧
  ∀ s, (s, RDF "type", SW "Reviewer") ∈ graph r ↔
       ∃ k, (1 ≤ k ≤ size (reviewer_cache r))%nat ∧ s = reviewer_uri k.
Proof.
  unfold run. generalize initialised_init. generalize __init__.
  intros self0 Hinit. cbv zeta.
  assert (Hsize : size (reviewer_cache (process_csv strptime now rows self0).1)
                  = size (reviewer_keys rows)).
  { by rewrite <-(cache_dom strptime now self0 Hinit rows), size_dom. }
  split; [by rewrite (reviewer_count_run _ _ _ Hinit)|]. split; [done|].
  intros s. rewrite (reviewer_typed _ _ _ Hinit). split.
  - intros [key Hkey]. by eapply cache_values.
  - intros (k & Hk & ->). by apply cache_numbers.
Qed.

(** X4. A reviewer tuple gets its number from its first appearance: if row
    [i] is the first to resolve the tuple, the cache maps the tuple to
    [reviewer_<k+1>], [k] the number of distinct tuples resolved by the rows
    before it; that node is typed [Reviewer], and the review of row [i] is
    made by it when the row is complete. *)
Theorem reviewer_numbered_by_first_appearance (strptime : string → option date)
    (now : nat → date) (rows : list Row) (i : nat) (row : Row)
    (key : ReviewerKey) :
  rows !! i = Some row →
  resolved_key row = Some key →
  key ∉ reviewer_keys (take i rows) →
  let r := (run strptime now rows).1 in
  let u := reviewer_uri (size (reviewer_keys (take i rows)) + 1) in
  reviewer_cache r !! key = Some u ∧
  (u, RDF "type", SW "Reviewer") ∈ graph r ∧
  (complete row → (review_uri (S i), SW "madeBy", u) ∈ graph r).
Proof.
  intros Hi Hres Hnew. unfold run.
  generalize initialised_init. generalize __init__.
  intros self0 Hinit. cbv zeta.
  unfold resolved_key in Hres.
  destruct (row !! "software_id") as [id|] eqn:Hid; [|done].
  pose proof (cache_row_lookup strptime now self0 rows i row id key Hi Hid Hres)
    as Hlookup.
  rewrite <-(cache_dom strptime now self0 Hinit (take i rows)) in Hnew.
  apply not_elem_of_dom in Hnew.
  assert (Hu : reviewer_of
                 (reviewer_cache (process_csv strptime now (take i rows) self0).1)
                 key
               = reviewer_uri (size (reviewer_keys (take i rows)) + 1)).
  { unfold reviewer_of. rewrite Hnew.
    by rewrite <-(cache_dom strptime now self0 Hinit (take i rows)), size_dom. }
  rewrite Hu in Hlookup. split; [done|]. split; [by eapply cache_typed|].
  intros Hc. apply madeBy_elem; [done|]. exists i, row, key. by rewrite Hu.
Qed.

(** X5. A Reviewer node stores the tuple that identifies it: a node is
    typed [Reviewer] exactly when the cache maps some tuple to it; its
    [setor], [porte], [frequencia] and [frequencia_complementar] triples are
    the four components of that tuple and no other value; and the cache maps
    no two tuples to one node. *)
Theorem reviewer_attributes_round_trip (strptime : string → option date)
    (now : nat → date) (rows : list Row) :
  let r := (run strptime now rows).1 in
  (∀ u, (u, RDF "type", SW "Reviewer") ∈ graph r ↔
     ∃ key, reviewer_cache r !! key = Some u ∧
       (∀ o, (u, SW "setor", o) ∈ graph r ↔ o = Lit key.1.1.1) ∧
       (∀ o, (u, SW "porte", o) ∈ graph r ↔ o = Lit key.1.1.2) ∧
       (∀ o, (u, SW "frequencia", o) ∈ graph r ↔ o = Lit key.1.2) ∧
       (∀ o, (u, SW "frequencia_complementar", o) ∈ graph r ↔ o = Lit key.2)) ∧
  (∀ k1 k2 u, reviewer_cache r !! k1 = Some u →
              reviewer_cache r !! k2 = Some u → k1 = k2).
Proof.
  unfold run. generalize initialised_init. generalize __init__.
  intros self0 Hinit. cbv zeta.
  split; [|intros k1 k2 u; by apply cache_inj].
  intros u. rewrite (reviewer_typed _ _ _ Hinit). split; [|naive_solver].
  intros [key Hkey]. exists key. split; [done|].
  assert (Hattr : ∀ column f o,
    (column, f) ∈ [ ("setor", λ key : ReviewerKey, key.1.1.1);
                    ("porte", λ key : ReviewerKey, key.1.1.2);
                    ("frequencia", λ key : ReviewerKey, key.1.2);
                    ("frequencia_complementar", λ key : ReviewerKey, key.2) ] →
    (u, SW column, o) ∈ graph (process_csv strptime now rows self0).1 ↔
    o = Lit (f key)).
  { intros column f o Hcol.
    rewrite (reviewer_attribute_elem strptime now self0 Hinit rows column f)
      by done.
    split; [|by eauto].
    intros (key' & Hkey' & ->).
    by rewrite (cache_inj strptime now self0 Hinit rows key' key u). }
  split; [|split; [|split]]; intros o.
  - apply (Hattr "setor" (λ key : ReviewerKey, key.1.1.1)). set_solver.
  - apply (Hattr "porte" (λ key : ReviewerKey, key.1.1.2)). set_solver.
  - apply (Hattr "frequencia" (λ key : ReviewerKey, key.1.2)). set_solver.
  - apply (Hattr "frequencia_complementar" (λ key : ReviewerKey, key.2)).
    set_solver.
Qed.

(** ** The resolvers and the loop on any populator *)

(** X6. [_get_or_create_software] on any populator: it returns
    [software_<id>]; afterwards the software is typed; nothing is removed from
    the graph and the cache is left alone; and a second call for the same id,
    with whatever name and page, returns the same identifier and changes
    nothing. *)
Theorem get_or_create_software_idempotent (id name name' : string)
    (pagina pagina' : option string) (self : Populator) :
  let r := _get_or_create_software id name pagina self in
  r.2 = inr (software_uri id) ∧
  (software_uri id, RDF "type", SW "Software") ∈ graph r.1 ∧
  graph self ⊆ graph r.1 ∧
  reviewer_cache r.1 = reviewer_cache self ∧
  _get_or_create_software id name' pagina' r.1 = (r.1, inr (software_uri id)).
Proof.
  cbv zeta. rewrite _get_or_create_software_run. cbn [fst snd graph reviewer_cache].
  assert (Hin : (software_uri id, RDF "type", SW "Software")
                  ∈ graph self ∪ software_delta (graph self) id name pagina).
  { apply elem_of_union.
    destruct (decide ((software_uri id, RDF "type", SW "Software") ∈ graph self))
      as [?|Hnew]; [by left|right].
    apply elem_of_software_delta. auto. }
  split; [done|]. split; [done|]. split; [apply union_subseteq_l|].
  split; [done|]. by apply software_present_run.
Qed.

(** X7. [_get_or_create_reviewer] on any populator: afterwards the cache
    maps the tuple to the identifier the call returned, and a second call for
    the same tuple returns that identifier and changes nothing; nothing is
    removed from the cache or the graph, and the cache grows by at most one
    entry. *)
Theorem get_or_create_reviewer_idempotent (a b c d : string) (self : Populator) :
  let r := _get_or_create_reviewer a b c d self in
  (∃ u, r.2 = inr u ∧ reviewer_cache r.1 !! (a, b, c, d) = Some u ∧
        _get_or_create_reviewer a b c d r.1 = (r.1, inr u)) ∧
  reviewer_cache self ⊆ reviewer_cache r.1 ∧
  graph self ⊆ graph r.1 ∧
  (size (reviewer_cache r.1) ≤ size (reviewer_cache self) + 1)%nat.
Proof.
  cbv zeta. rewrite _get_or_create_reviewer_run. cbn [fst snd graph reviewer_cache].
  split; [|split; [apply cache_after_subseteq|split; [apply union_subseteq_l|]]].
  - exists (reviewer_of (reviewer_cache self) (a, b, c, d)).
    split; [done|]. split; [apply cache_after_lookup|].
    apply reviewer_hit_run. apply cache_after_lookup.
  - unfold cache_after.
    destruct (reviewer_cache self !! (a, b, c, d)) eqn:Hc; [lia|].
    rewrite map_size_insert_None by done. lia.
Qed.

Section AnyPopulator.
Variable strptime : string → option date.
Variable now : nat → date.

Lemma cache_grows (rows : list Row) (self : Populator) :
  reviewer_cache self ⊆ reviewer_cache (process_csv strptime now rows self).1.
Proof.
  induction rows as [|r rows IH] using rev_ind; [done|].
  etrans; [apply IH|]. rewrite cache_snoc. apply row_cache_subseteq.
Qed.
End AnyPopulator.

(** X8. [process_csv] only adds: on any populator and any rows, every
    triple and every cache entry present before is present afterwards, and
    none of the three counts decreases. *)
Theorem process_csv_only_adds (strptime : string → option date)
    (now : nat → date) (rows : list Row) (self : Populator) :
  let r := (process_csv strptime now rows self).1 in
  graph self ⊆ graph r ∧
  reviewer_cache self ⊆ reviewer_cache r ∧
  (software_count self ≤ software_count r)%nat ∧
  (review_count self ≤ review_count r)%nat ∧
  (reviewer_count self ≤ reviewer_count r)%nat.
Proof.
  cbv zeta.
  assert (Hsub : graph self ⊆ graph (process_csv strptime now rows self).1).
  { intros t Ht. apply elem_of_graph. by left. }
  assert (Hcount : ∀ p o,
    (length (subjects (graph self) p o)
     ≤ length (subjects (graph (process_csv strptime now rows self).1) p o))%nat).
  { intros p o. apply submseteq_length, NoDup_submseteq; [apply NoDup_subjects|].
    intros s. rewrite !elem_of_subjects. apply Hsub. }
  split; [done|]. split; [apply cache_grows|].
  unfold software_count, review_count, reviewer_count. auto.
Qed.

(** ** Entities and the schema *)

(** The only declared term that is a software identifier is the property
    [software_id], the identifier of the software whose id is [id]; no
    declared term is a review or a reviewer identifier. *)
Lemma software_uri_schema_term (id : string) :
  software_uri id ∈ schema_terms ↔ id = "id".
Proof.
  split.
  - unfold schema_terms, classes, obj_properties, dt_properties.
    cbn [fmap list_fmap app fst]. intros H.
    repeat (apply elem_of_cons in H as [H|H];
            [apply Namespace_inj in H; cbn [String.append] in H;
             first [discriminate H | by injection H]|]).
    by apply elem_of_nil in H.
  - intros ->. apply (bool_decide_unpack _). vm_compute. exact I.
Qed.

Lemma review_uri_schema_term (n : nat) : review_uri n ∉ schema_terms.
Proof.
  unfold schema_terms, classes, obj_properties, dt_properties.
  cbn [fmap list_fmap app fst]. intros H.
  repeat (apply elem_of_cons in H as [H|H];
          [apply Namespace_inj in H; cbn [String.append] in H; discriminate H|]).
  by apply elem_of_nil in H.
Qed.

Lemma reviewer_uri_schema_term (k : nat) : reviewer_uri k ∉ schema_terms.
Proof.
  unfold schema_terms, classes, obj_properties, dt_properties.
  cbn [fmap list_fmap app fst]. intros H.
  repeat (apply elem_of_cons in H as [H|H];
          [apply Namespace_inj in H; cbn [String.append] in H; discriminate H|]).
  by apply elem_of_nil in H.
Qed.

Lemma classes_elem :
  SW "Software" ∈ classes ∧ SW "Review" ∈ classes ∧ SW "Reviewer" ∈ classes.
Proof. repeat split; apply (bool_decide_unpack _); vm_compute; exact I. Qed.

Section EntitySchema.
Variable strptime : string → option date.
Variable now : nat → date.
Variable self0 : Populator.
Hypothesis Hinit : initialised self0.

Local Abbreviation P rows := (process_csv strptime now rows self0).1.

(** A typed software was created by a row that found it missing. *)
Lemma software_created (rows : list Row) (id : string) :
  (software_uri id, RDF "type", SW "Software") ∈ graph (P rows) →
  ∃ i row, rows !! i = Some row ∧ row !! "software_id" = Some id ∧
    (software_uri id, RDF "type", SW "Software") ∉ graph (P (take i rows)).
Proof.
  intros (i & row & Hi & Hd)%data_elem; [|done|reflexivity].
  delta_inv Hd; node_eqs. eauto.
Qed.

Lemma software_id_written (rows : list Row) (id : string) :
  (software_uri id, RDF "type", SW "Software") ∈ graph (P rows) →
  (software_uri id, SW "software_id", Lit id) ∈ graph (P rows).
Proof.
  intros (i & row & Hi & Hid & Hnew)%software_created.
  eapply row_delta_in_graph; [done|].
  apply elem_of_row_delta. exists id. split; [done|]. left.
  apply elem_of_software_delta. auto.
Qed.

(** The shape of a node typed with one of the three classes. *)
Lemma entity_shape (rows : list Row) (s c : Node) :
  c ∈ classes → (s, RDF "type", c) ∈ graph (P rows) →
  (c = SW "Software" ∧ ∃ id, id ∈ software_ids rows ∧ s = software_uri id) ∨
  (c = SW "Review" ∧ ∃ i, s = review_uri (S i)) ∨
  (c = SW "Reviewer" ∧ ∃ k, s = reviewer_uri k).
Proof.
  unfold classes. rewrite !elem_of_cons, elem_of_nil.
  intros [->|[->|[->|[]]]] Hs.
  - left. split; [done|].
    apply software_typed in Hs as (row & id & Hrow & Hid & ->); [|done].
    exists id. split; [|done]. apply elem_of_software_ids. eauto.
  - right. left. split; [done|].
    apply review_typed in Hs as (i & row & _ & _ & ->); [|done]. eauto.
  - right. right. split; [done|].
    apply reviewer_typed in Hs as [key Hkey]; [|done].
    apply cache_values in Hkey as (k & _ & ->); [|done]. eauto.
Qed.
End EntitySchema.

(** X9. The three kinds of entities are disjoint: whatever the ids in the
    file, no node of the final graph is typed with two of [Software], [Review]
    and [Reviewer]. *)
Theorem entity_kinds_disjoint (strptime : string → option date)
    (now : nat → date) (rows : list Row) (s : Node) :
  let g := graph (run strptime now rows).1 in
  ¬ ((s, RDF "type", SW "Software") ∈ g ∧ (s, RDF "type", SW "Review") ∈ g) ∧
  ¬ ((s, RDF "type", SW "Software") ∈ g ∧ (s, RDF "type", SW "Reviewer") ∈ g) ∧
  ¬ ((s, RDF "type", SW "Review") ∈ g ∧ (s, RDF "type", SW "Reviewer") ∈ g).
Proof.
  unfold run. generalize initialised_init. generalize __init__.
  intros self0 Hinit. cbv zeta.
  assert (Hshape := entity_shape strptime now self0 Hinit rows s).
  destruct classes_elem as (Hsw & Hrev & Hrv).
  split; [|split]; intros [H1 H2].
  - destruct (Hshape (SW "Software")) as [(_ & id & _ & ->)|[[? _]|[? _]]];
      [done|done|..]; [|done..].
    destruct (Hshape (SW "Review")) as [[? _]|[(_ & i & Heq)|[? _]]];
      [done|done|..]; [done| |done].
    by apply software_review_uri in Heq.
  - destruct (Hshape (SW "Software")) as [(_ & id & _ & ->)|[[? _]|[? _]]];
      [done|done|..]; [|done..].
    destruct (Hshape (SW "Reviewer")) as [[? _]|[[? _]|(_ & k & Heq)]];
      [done|done|..]; [done..|].
    by apply software_reviewer_uri in Heq.
  - destruct (Hshape (SW "Review")) as [[? _]|[(_ & i & ->)|[? _]]];
      [done|done|..]; [done| |done].
    destruct (Hshape (SW "Reviewer")) as [[? _]|[[? _]|(_ & k & Heq)]];
      [done|done|..]; [done..|].
    by apply review_reviewer_uri in Heq.
Qed.

(** X10. An entity and a term of the schema are the same node in one case
    only: the software whose [software_id] is the text [id] is identified by
    [software_id], the identifier of the datatype property.  A node typed with
    one of the three classes is a class or a property of the schema exactly
    when it is that node and some row has that id; and then the property is
    typed [Software] too and is the subject of its own attribute. *)
Theorem entities_and_schema_terms (strptime : string → option date)
    (now : nat → date) (rows : list Row) :
  let g := graph (run strptime now rows).1 in
  (∀ s, (∃ c, c ∈ classes ∧ (s, RDF "type", c) ∈ g) ∧ s ∈ schema_terms ↔
        s = SW "software_id" ∧ "id" ∈ software_ids rows) ∧
  ("id" ∈ software_ids rows ↔
     (SW "software_id", RDF "type", OWL "DatatypeProperty") ∈ g ∧
     (SW "software_id", RDF "type", SW "Software") ∈ g ∧
     (SW "software_id", SW "software_id", Lit "id") ∈ g).
Proof.
  unfold run. generalize initialised_init. generalize __init__.
  intros self0 Hinit. cbv zeta.
  assert (Htyped : "id" ∈ software_ids rows ↔
    (SW "software_id", RDF "type", SW "Software")
      ∈ graph (process_csv strptime now rows self0).1).
  { rewrite elem_of_software_ids, (software_typed _ _ _ Hinit). split.
    - intros (row & Hrow & Hid). by exists row, "id".
    - intros (row & id & Hrow & Hid & Heq).
      change (SW "software_id") with (software_uri "id") in Heq.
      apply software_uri_inj in Heq as <-. eauto. }
  split.
  - intros s. split.
    + intros [(c & Hc & Hs) Hterm].
      destruct (entity_shape strptime now self0 Hinit rows s c Hc Hs)
        as [(_ & id & Hid & ->)|[(_ & i & ->)|(_ & k & ->)]].
      * apply software_uri_schema_term in Hterm as ->. done.
      * by apply review_uri_schema_term in Hterm.
      * by apply reviewer_uri_schema_term in Hterm.
    + intros [-> Hid]. split.
      * exists (SW "Software"). split; [apply classes_elem|]. by apply Htyped.
      * by apply (software_uri_schema_term "id").
  - rewrite Htyped. split; [|tauto]. intros Hs. split; [|split; [done|]].
    + apply elem_of_graph. left. destruct Hinit as [-> _].
      apply elem_of_list_to_set. apply (bool_decide_unpack _). vm_compute. exact I.
    + by apply (software_id_written strptime now self0 Hinit rows "id").
Qed.

(** ** Data triples and the declared schema *)

(** Membership in one of the lists of the schema, by evaluation. *)
Ltac in_schema_list := apply (bool_decide_unpack _); vm_compute; exact I.

Section Conformance.
Variable strptime : string → option date.
Variable now : nat → date.
Variable self0 : Populator.
Hypothesis Hinit : initialised self0.

Local Abbreviation P rows := (process_csv strptime now rows self0).1.

(** The reviewer a row resolves to is typed in the final graph. *)
Lemma resolved_reviewer_typed (rows : list Row) (i : nat) (row : Row)
    (id : string) (key : ReviewerKey) :
  rows !! i = Some row → row !! "software_id" = Some id →
  reviewer_key row = Some key →
  (reviewer_of (reviewer_cache (P (take i rows))) key, RDF "type", SW "Reviewer")
    ∈ graph (P rows).
Proof.
  intros Hi Hid Hkey. eapply cache_typed; [done|].
  by eapply cache_row_lookup.
Qed.

Lemma row_software_typed (rows : list Row) (i : nat) (row : Row) (id : string) :
  rows !! i = Some row → row !! "software_id" = Some id →
  (software_uri id, RDF "type", SW "Software") ∈ graph (P rows).
Proof.
  intros Hi Hid. apply software_typed; [done|]. exists row, id.
  split; [by eapply list_elem_of_lookup_2|done].
Qed.

Lemma row_review_typed (rows : list Row) (i : nat) (row : Row) (id s : string)
    (key : ReviewerKey) :
  rows !! i = Some row → row !! "software_id" = Some id →
  reviewer_key row = Some key → row !! "data_avaliacao" = Some s →
  (review_uri (S i), RDF "type", SW "Review") ∈ graph (P rows).
Proof.
  intros Hi Hid Hkey Hs. apply review_typed; [done|]. exists i, row.
  split; [done|]. split; [|done].
  apply reviewer_key_Some in Hkey as (? & ? & ? & ?).
  apply reaches_review_fields. eauto 20.
Qed.

Lemma data_conforms (rows : list Row) (i : nat) (row : Row) (t : Triple) :
  rows !! i = Some row →
  t ∈ row_delta strptime now (P (take i rows)) (S i) row →
  conforms (graph (P rows)) t.
Proof.
  intros Hi Hd. unfold conforms.
  apply elem_of_row_delta in Hd
    as (id & Hid & [Hd | (key & Hkey & [Hd | (s & Hs & Hd)])]).
  - pose proof (row_software_typed rows i row id Hi Hid) as Hsw.
    apply elem_of_software_delta in Hd
      as (Hnew & [->|[->|[->|(p & Hpag & Hp & ->)]]]);
      cbn [subject predicate object fst snd].
    + left. split; [done|]. in_schema_list.
    + right. right. exists (SW "Software"), (XSD "string").
      split; [in_schema_list|]. done.
    + right. right. exists (SW "Software"), (XSD "string").
      split; [in_schema_list|]. done.
    + right. right. exists (SW "Software"), (XSD "string").
      split; [in_schema_list|]. done.
  - pose proof (resolved_reviewer_typed rows i row id key Hi Hid Hkey) as Hrv.
    apply elem_of_reviewer_delta in Hd as (Hmiss & Hd). cbv zeta in Hd.
    unfold reviewer_of in Hrv. rewrite Hmiss in Hrv.
    destruct Hd as [->|[->|[->|[->| ->]]]];
      cbn [subject predicate object fst snd].
    + left. split; [done|]. in_schema_list.
    + right. right. exists (SW "Reviewer"), (XSD "string").
      split; [in_schema_list|]. done.
    + right. right. exists (SW "Reviewer"), (XSD "string").
      split; [in_schema_list|]. done.
    + right. right. exists (SW "Reviewer"), (XSD "string").
      split; [in_schema_list|]. done.
    + right. right. exists (SW "Reviewer"), (XSD "string").
      split; [in_schema_list|]. done.
  - pose proof (row_software_typed rows i row id Hi Hid) as Hsw.
    pose proof (resolved_reviewer_typed rows i row id key Hi Hid Hkey) as Hrv.
    pose proof (row_review_typed rows i row id s key Hi Hid Hkey Hs) as Hrev.
    apply elem_of_review_delta in Hd.
    destruct Hd as [->|(? & _ & [->|(? & _ & [->|[->|(? & _ & [->|
      (? & _ & [->|(? & _ & [->|[(? & _ & _ & ->)|[(? & _ & _ & ->)|[->| ->]]]])])])]])])];
      cbn [subject predicate object fst snd];
      first
        [ left; split; [done|]; in_schema_list
        | right; right; exists (SW "Review"), (XSD "string");
          split; [in_schema_list|]; done
        | right; right; exists (SW "Review"), (XSD "date");
          split; [in_schema_list|]; done
        | right; left; exists (SW "Software"), (SW "Review");
          split; [in_schema_list|]; done
        | right; left; exists (SW "Review"), (SW "Reviewer");
          split; [in_schema_list|]; done ].
Qed.
End Conformance.

(** X11. Every triple of the final graph that the constructor did not
    write agrees with the schema: it types its subject with one of the three
    classes, or its predicate is a declared property, its subject is typed
    with the domain of that property, and its object is typed with the range
    (an object property) or is a literal of the range (a datatype property: a
    date literal typed [xsd:date] under [data_avaliacao], a plain string
    literal under the others). *)
Theorem data_conforms_to_schema (strptime : string → option date)
    (now : nat → date) (rows : list Row) (t : Triple) :
  let g := graph (run strptime now rows).1 in
  t ∈ g → t ∈ graph __init__ ∨ conforms g t.
Proof.
  unfold run. generalize initialised_init. generalize __init__.
  intros self0 Hinit. cbv zeta.
  intros [?|(i & row & Hi & Hd)]%elem_of_graph; [by left|right].
  by eapply data_conforms.
Qed.

(** ** One value per attribute *)

Lemma not_datatype_property :
  (RDF "type" ∉ dt_properties.*1.*1) ∧ (SW "hasReview" ∉ dt_properties.*1.*1) ∧
  (SW "madeBy" ∉ dt_properties.*1.*1).
Proof.
  repeat split; apply (bool_decide_eq_false_1 _); vm_compute; reflexivity.
Qed.

(** Two triples with different predicates are different. *)
Ltac other_predicate H :=
  exfalso; clear -H; apply (f_equal predicate) in H;
  cbn [predicate fst snd] in H; vm_compute in H; discriminate H.

Section SingleValued.
Variable strptime : string → option date.
Variable now : nat → date.
Variable self0 : Populator.
Hypothesis Hinit : initialised self0.

Local Abbreviation P rows := (process_csv strptime now rows self0).1.

(** A software is created by one row only. *)
Lemma creator_unique (rows : list Row) (i j : nat) (ri rj : Row) (id : string) :
  rows !! i = Some ri → rows !! j = Some rj →
  ri !! "software_id" = Some id → rj !! "software_id" = Some id →
  (software_uri id, RDF "type", SW "Software") ∉ graph (P (take i rows)) →
  (software_uri id, RDF "type", SW "Software") ∉ graph (P (take j rows)) →
  i = j.
Proof.
  assert (Hlt : ∀ a b r, (a < b)%nat → rows !! a = Some r →
            r !! "software_id" = Some id →
            (software_uri id, RDF "type", SW "Software")
              ∈ graph (P (take b rows))).
  { intros a b r Hab Ha Hid. apply software_typed; [done|]. exists r, id.
    split; [|done]. apply list_elem_of_lookup. exists a.
    by rewrite lookup_take_lt. }
  intros Hi Hj Hidi Hidj Hni Hnj.
  destruct (Nat.lt_trichotomy i j) as [Hij|[->|Hji]]; [|done|].
  - destruct Hnj. by eapply Hlt.
  - destruct Hni. by eapply Hlt.
Qed.

(** A reviewer is created by one row only. *)
Lemma reviewer_creator_unique (rows : list Row) (i j : nat) (ri rj : Row)
    (idi idj : string) (ki kj : ReviewerKey) :
  rows !! i = Some ri → rows !! j = Some rj →
  ri !! "software_id" = Some idi → rj !! "software_id" = Some idj →
  reviewer_key ri = Some ki → reviewer_key rj = Some kj →
  reviewer_cache (P (take i rows)) !! ki = None →
  reviewer_cache (P (take j rows)) !! kj = None →
  size (reviewer_cache (P (take i rows))) = size (reviewer_cache (P (take j rows))) →
  i = j.
Proof.
  assert (Hlt : ∀ a b r id k, (a < b)%nat → rows !! a = Some r →
            r !! "software_id" = Some id → reviewer_key r = Some k →
            reviewer_cache (P (take a rows)) !! k = None →
            (size (reviewer_cache (P (take a rows)))
             < size (reviewer_cache (P (take b rows))))%nat).
  { intros a b r id k Hab Ha Hid Hkey Hmiss.
    apply Nat.lt_le_trans with (size (reviewer_cache (P (take (S a) rows)))).
    - rewrite (cache_take_S _ _ _ _ _ _ Ha). unfold row_cache.
      rewrite Hid, Hkey. unfold cache_after. rewrite Hmiss.
      rewrite map_size_insert_None by done. lia.
    - replace (take (S a) rows) with (take (S a) (take b rows))
        by (rewrite take_take; f_equal; lia).
      apply map_subseteq_size, cache_take_subseteq. }
  intros Hi Hj Hidi Hidj Hki Hkj Hmi Hmj Hsize.
  destruct (Nat.lt_trichotomy i j) as [Hij|[->|Hji]]; [|done|].
  - pose proof (Hlt i j ri idi ki Hij Hi Hidi Hki Hmi). lia.
  - pose proof (Hlt j i rj idj kj Hji Hj Hidj Hkj Hmj). lia.
Qed.

Lemma attribute_single_row (rows : list Row) (i j : nat) (ri rj : Row)
    (s p o1 o2 : Node) :
  p ∈ dt_properties.*1.*1 →
  rows !! i = Some ri → rows !! j = Some rj →
  (s, p, o1) ∈ row_delta strptime now (P (take i rows)) (S i) ri →
  (s, p, o2) ∈ row_delta strptime now (P (take j rows)) (S j) rj →
  o1 = o2.
Proof.
  intros Hp Hi Hj H1 H2.
  destruct not_datatype_property as (Htype & Hhas & Hmade).
  delta_inv H1; node_eqs; try done.
  all: delta_inv H2; try other_predicate H2; node_eqs.
  all: try (assert (i = j) as <- by (by eapply creator_unique);
            assert (rj = ri) as -> by congruence; congruence).
  all: try (assert (i = j) as <-
              by (eapply (reviewer_creator_unique rows i j ri rj); eauto; lia);
            assert (rj = ri) as -> by congruence; congruence).
  all: try (assert (rj = ri) as -> by congruence; congruence).
Qed.
End SingleValued.

(** X12. Every datatype property is single-valued in the final graph: a
    subject has at most one value for each of the fifteen attributes, whatever
    the rows.  (A software keeps the values of the row that created it, a
    reviewer those of its tuple, a review those of its row.) *)
Theorem attributes_single_valued (strptime : string → option date)
    (now : nat → date) (rows : list Row) (s p o1 o2 : Node) :
  let g := graph (run strptime now rows).1 in
  p ∈ dt_properties.*1.*1 →
  (s, p, o1) ∈ g → (s, p, o2) ∈ g → o1 = o2.
Proof.
  unfold run. generalize initialised_init. generalize __init__.
  intros self0 Hinit. cbv zeta. intros Hp H1 H2.
  assert (Hdata : is_schema (s, p, o1) = false ∧ is_schema (s, p, o2) = false).
  { clear -Hp. unfold is_schema. cbn [predicate object fst snd].
    assert (Hnot : p ≠ RDF "type" ∧ p ∉ [RDFS "domain"; RDFS "range"]).
    { revert p Hp. apply Forall_forall.
      apply (bool_decide_unpack _). vm_compute. exact I. }
    destruct Hnot as [Htype Hdr].
    by rewrite !bool_decide_eq_false_2 by tauto. }
  destruct Hdata as [Hd1 Hd2].
  apply data_elem in H1 as (i & ri & Hi & H1); [|done..].
  apply data_elem in H2 as (j & rj & Hj & H2); [|done..].
  by eapply (attribute_single_row strptime now self0 Hinit rows i j).
Qed.

(** ** Reviews *)

Section ReviewRows.
Variable strptime : string → option date.
Variable now : nat → date.
Variable self0 : Populator.
Hypothesis Hinit : initialised self0.

Local Abbreviation P rows := (process_csv strptime now rows self0).1.


(** An optional attribute is written by a complete row with a non-empty
    cell. *)
Lemma optional_attribute_elem (rows : list Row) (i : nat) (column : string)
    (o : Node) :
  column ∈ ["sft_anterior"; "motivo_mudanca"] →
  (review_uri (S i), SW column, o) ∈ graph (P rows) ↔
  ∃ row v, rows !! i = Some row ∧ complete row ∧
    row !! column = Some v ∧ v ≠ "" ∧ o = Lit v.
Proof.
  intros Hcol.
  assert (Hcases : column = "sft_anterior" ∨ column = "motivo_mudanca").
  { repeat (apply elem_of_cons in Hcol as [->|Hcol]; [tauto|]).
    by apply elem_of_nil in Hcol. }
  rewrite review_subject by done. split.
  - intros (row & Hi & Hd).
    destruct Hcases as [-> | ->]; delta_inv Hd; try other_predicate Hd;
      node_eqs; exists row, v; (split; [done|]); (split; [|done]);
      apply reviewer_key_Some in Hkey as (? & ? & ? & ?);
      apply complete_fields; eauto 30.
  - intros (row & v & Hi & Hc & Hv & Hne & ->). exists row. split; [done|].
    apply complete_fields in Hc
      as (id & a & b & c & d & s & f & r & co & va & de & Hid & Ha & Hb & Hcc
          & Hd & Hs & Hf & Hr & Hco & Hva & Hde).
    apply elem_of_row_delta. exists id. split; [done|]. right.
    exists (a, b, c, d). split; [by apply reviewer_key_Some|]. right.
    exists s. split; [done|]. apply elem_of_review_delta.
    right. exists f. split; [done|]. right. exists r. split; [done|].
    right. right. exists co. split; [done|]. right. exists va. split; [done|].
    right. exists de. split; [done|].
    destruct Hcases as [-> | ->]; eauto 10.
Qed.

(** No optional attribute is the empty string. *)
Lemma optional_not_empty (rows : list Row) (s p : Node) :
  p ∈ [SW "pagina"; SW "sft_anterior"; SW "motivo_mudanca"] →
  (s, p, Lit "") ∉ graph (P rows).
Proof.
  rewrite !elem_of_cons, elem_of_nil. intros Hp Hin.
  apply data_elem in Hin as (i & row & Hi & Hd);
    [|done|by destruct Hp as [->|[->|[->|[]]]]].
  destruct Hp as [->|[->|[->|[]]]];
    delta_inv Hd; try other_predicate Hd; node_eqs; done.
Qed.
End ReviewRows.


(** X14. The optional review attributes are written for the non-empty
    cells of complete rows only: [review_<i>] has a [sft_anterior] (a
    [motivo_mudanca]) triple exactly when row [i] is complete and its cell is
    not empty, with that cell as value; and no [pagina], [sft_anterior] or
    [motivo_mudanca] triple has the empty string as object. *)
Theorem optional_attributes_written_when_not_empty
    (strptime : string → option date) (now : nat → date) (rows : list Row) :
  let g := graph (run strptime now rows).1 in
  (∀ i o, (review_uri (S i), SW "sft_anterior", o) ∈ g ↔
     ∃ row v, rows !! i = Some row ∧ complete row ∧
       row !! "sft_anterior" = Some v ∧ v ≠ "" ∧ o = Lit v) ∧
  (∀ i o, (review_uri (S i), SW "motivo_mudanca", o) ∈ g ↔
     ∃ row v, rows !! i = Some row ∧ complete row ∧
       row !! "motivo_mudanca" = Some v ∧ v ≠ "" ∧ o = Lit v) ∧
  (∀ s, ((s, SW "pagina", Lit "") ∉ g) ∧ ((s, SW "sft_anterior", Lit "") ∉ g) ∧
        ((s, SW "motivo_mudanca", Lit "") ∉ g)).
Proof.
  unfold run. generalize initialised_init. generalize __init__.
  intros self0 Hinit. cbv zeta. split; [|split].
  - intros i o. apply optional_attribute_elem; [done|set_solver].
  - intros i o. apply optional_attribute_elem; [done|set_solver].
  - intros s. repeat split; apply optional_not_empty; (done || set_solver).
Qed.

(** X15. The review of a complete row is linked to the entities of its
    own row: [software_<id>], for the row's id, and no other node has
    [review_<i>] as a review; that software is typed and carries the id;
    [review_<i>] is made by the node the cache maps the row's tuple to, and by
    no other; and that node is typed [Reviewer] and carries the four cells of
    the row. *)
Theorem review_linked_to_its_row (strptime : string → option date)
    (now : nat → date) (rows : list Row) (i : nat) (row : Row) (id : string)
    (key : ReviewerKey) :
  rows !! i = Some row → complete row →
  row !! "software_id" = Some id → reviewer_key row = Some key →
  let r := (run strptime now rows).1 in
  (∀ a, (a, SW "hasReview", review_uri (S i)) ∈ graph r ↔ a = software_uri id) ∧
  (software_uri id, RDF "type", SW "Software") ∈ graph r ∧
  (software_uri id, SW "software_id", Lit id) ∈ graph r ∧
  (∀ u, (review_uri (S i), SW "madeBy", u) ∈ graph r ↔
        reviewer_cache r !! key = Some u) ∧
  ∃ u, reviewer_cache r !! key = Some u ∧
    (u, RDF "type", SW "Reviewer") ∈ graph r ∧
    (u, SW "setor", Lit key.1.1.1) ∈ graph r ∧
    (u, SW "porte", Lit key.1.1.2) ∈ graph r ∧
    (u, SW "frequencia", Lit key.1.2) ∈ graph r ∧
    (u, SW "frequencia_complementar", Lit key.2) ∈ graph r.
Proof.
  intros Hi Hc Hid Hkey. unfold run.
  generalize initialised_init. generalize __init__.
  intros self0 Hinit. cbv zeta.
  pose proof (cache_row_lookup strptime now self0 rows i row id key Hi Hid Hkey)
    as Hlookup.
  pose proof (row_software_typed strptime now self0 Hinit rows i row id Hi Hid)
    as Hsw.
  split; [|split; [done|split; [by apply software_id_written|split]]].
  - intros a. rewrite hasReview_elem by done. split.
    + intros (i' & row' & id' & Hi' & _ & Hid' & -> & <-%review_uri_inj%(inj S)).
      congruence.
    + intros ->. by exists i, row, id.
  - intros u. rewrite madeBy_elem by done. rewrite Hlookup. split.
    + intros (i' & row' & key' & Hi' & _ & Hkey' & <-%review_uri_inj%(inj S) & ->).
      congruence.
    + intros [= <-]. by exists i, row, key.
  - eexists. split; [exact Hlookup|].
    split; [by eapply cache_typed|].
    assert (Hattr : ∀ column f,
      (column, f) ∈ [ ("setor", λ key : ReviewerKey, key.1.1.1);
                      ("porte", λ key : ReviewerKey, key.1.1.2);
                      ("frequencia", λ key : ReviewerKey, key.1.2);
                      ("frequencia_complementar", λ key : ReviewerKey, key.2) ] →
      (reviewer_of (reviewer_cache (process_csv strptime now (take i rows) self0).1)
         key, SW column, Lit (f key))
        ∈ graph (process_csv strptime now rows self0).1).
    { intros column f Hcol.
      apply (reviewer_attribute_elem strptime now self0 Hinit rows column f);
        [done|]. eauto. }
    repeat split.
    + apply (Hattr "setor" (λ key : ReviewerKey, key.1.1.1)). set_solver.
    + apply (Hattr "porte" (λ key : ReviewerKey, key.1.1.2)). set_solver.
    + apply (Hattr "frequencia" (λ key : ReviewerKey, key.1.2)). set_solver.
    + apply (Hattr "frequencia_complementar" (λ key : ReviewerKey, key.2)).
      set_solver.
Qed.

(** ** Calling [process_csv] again *)

Section Replay.
Variable strptime : string → option date.
Variable now now' : nat → date.
Variable self0 : Populator.
Hypothesis Hinit : initialised self0.

Local Abbreviation P rows := (process_csv strptime now rows self0).1.

(** A row of a file that was processed writes nothing the second time. *)
Lemma replay_row (rows : list Row) (i : nat) (row : Row) :
  rows !! i = Some row →
  (∀ s, row !! "data_avaliacao" = Some s → is_Some (strptime s)) →
  process_row strptime now' (S i) row (P rows) = (P rows, row_result row).
Proof.
  intros Hi Hvalid. rewrite process_row_run. f_equal. symmetry.
  apply Populator_eq.
  - symmetry. cbn [graph]. rewrite (comm_L (∪)). apply subseteq_union_1_L.
    intros t Ht.
    apply elem_of_row_delta in Ht
      as (id & Hid & [Ht | (key & Hkey & [Ht | (s & Hs & Ht)])]).
    + apply elem_of_software_delta in Ht as [Hnew _]. destruct Hnew.
      by eapply row_software_typed.
    + apply elem_of_reviewer_delta in Ht as [Hmiss _].
      rewrite (cache_row_lookup strptime now self0 rows i row id key) in Hmiss
        by done. discriminate Hmiss.
    + eapply row_delta_in_graph; [exact Hi|].
      apply elem_of_row_delta. exists id. split; [done|]. right.
      exists key. split; [done|]. right. exists s. split; [done|].
      assert (Hrv : reviewer_of (reviewer_cache (P rows)) key
                    = reviewer_of (reviewer_cache (P (take i rows))) key).
      { unfold reviewer_of at 1.
        by rewrite (cache_row_lookup strptime now self0 rows i row id key). }
      rewrite Hrv in Ht. destruct (Hvalid s Hs) as [d Hd].
      unfold review_delta, date_of in *. by rewrite Hd in *.
  - unfold row_cache.
    destruct (row !! "software_id") as [id|] eqn:Hid; [|done].
    destruct (reviewer_key row) as [key|] eqn:Hkey; [|done].
    unfold cache_after.
    by rewrite (cache_row_lookup strptime now self0 rows i row id key).
Qed.

Lemma replay_rows (rows rest : list Row) (n : nat) :
  (∀ j row, rest !! j = Some row → rows !! (n + j) = Some row) →
  (∀ row s, row ∈ rows → row !! "data_avaliacao" = Some s →
            is_Some (strptime s)) →
  (process_rows strptime now' (S n) rest (P rows)).1 = P rows.
Proof.
  intros Hrest Hvalid. revert n Hrest.
  induction rest as [|row rest IH]; intros n Hrest; [done|].
  cbn [process_rows]. rewrite (replay_row rows n row).
  - specialize (IH (S n)).
    destruct (process_rows strptime now' (S (S n)) rest (P rows)) as [s2 out].
    cbn [fst] in *. apply IH. intros j r Hj.
    replace (S n + j) with (n + S j) by lia. by apply Hrest.
  - specialize (Hrest 0 row eq_refl). by rewrite Nat.add_0_r in Hrest.
  - intros s. apply Hvalid. apply list_elem_of_lookup. exists n.
    specialize (Hrest 0 row eq_refl). by rewrite Nat.add_0_r in Hrest.
Qed.
End Replay.

(** X16. Reading the same file again into the same populator changes
    nothing, provided every [data_avaliacao] present parses: row numbers start
    again at 1, so every row finds its software, its reviewer and the triples
    of its review already there.  The populator after the second [process_csv]
    is the one after the first, and the same lines are printed. *)
Theorem reingestion_changes_nothing (strptime : string → option date)
    (now now' : nat → date) (rows : list Row) :
  (∀ row s, row ∈ rows → row !! "data_avaliacao" = Some s →
            is_Some (strptime s)) →
  let r := run strptime now rows in
  process_csv strptime now' rows r.1 = r.
Proof.
  intros Hvalid. unfold run. generalize initialised_init. generalize __init__.
  intros self0 Hinit. cbv zeta.
  rewrite (surjective_pairing (process_csv strptime now' rows _)).
  rewrite (surjective_pairing (process_csv strptime now rows self0)) at 3.
  f_equal.
  - unfold process_csv at 1. by apply (replay_rows strptime now now' self0 Hinit).
  - unfold process_csv. by rewrite !process_rows_out.
Qed.

(** What a row writes about the type and the source of its review,
    whatever the populator. *)
Section AnyState.
Variable strptime : string → option date.
Variable now : nat → date.

Lemma review_type_delta (self : Populator) (n : nat) (row : Row) (s : Node) :
  (s, RDF "type", SW "Review") ∈ row_delta strptime now self n row ↔
  reaches_review row ∧ s = review_uri n.
Proof.
  split.
  - intros Hd. delta_inv Hd; node_eqs. split; [|done].
    apply reviewer_key_Some in Hkey as (? & ? & ? & ?).
    apply reaches_review_fields. eauto 20.
  - intros [(id & a & b & c & d & s' & Hid & Ha & Hb & Hc & Hd & Hs)
             %reaches_review_fields ->].
    apply elem_of_row_delta. exists id. split; [done|]. right.
    exists (a, b, c, d). split; [by apply reviewer_key_Some|]. right.
    exists s'. split; [done|]. apply elem_of_review_delta. by left.
Qed.

Lemma fonte_delta (self : Populator) (n : nat) (row : Row) (f : string) :
  reaches_review row → row !! "fonte" = Some f →
  (review_uri n, SW "fonte", Lit f) ∈ row_delta strptime now self n row.
Proof.
  intros (id & a & b & c & d & s' & Hid & Ha & Hb & Hc & Hd & Hs)
           %reaches_review_fields Hf.
  apply elem_of_row_delta. exists id. split; [done|]. right.
  exists (a, b, c, d). split; [by apply reviewer_key_Some|]. right.
  exists s'. split; [done|]. apply elem_of_review_delta.
  right. exists f. split; [done|]. by left.
Qed.
End AnyState.

(** X17. Two files read into one populator share review identifiers:
    numbering starts at 1 in each call of [process_csv], so after the second
    file the subjects typed [Review] are the [review_<i>] of the rows [i] of
    either file that reach their review; when all rows do, their count is the
    larger of the two lengths, not the sum; and [review_<i>] carries the
    [fonte] of row [i] of both files. *)
Theorem second_file_reuses_review_identifiers (strptime : string → option date)
    (now now' : nat → date) (rows1 rows2 : list Row) :
  let r1 := (run strptime now rows1).1 in
  let r2 := (process_csv strptime now' rows2 r1).1 in
  (∀ s, (s, RDF "type", SW "Review") ∈ graph r2 ↔
        ∃ i row, (rows1 !! i = Some row ∨ rows2 !! i = Some row) ∧
                 reaches_review row ∧ s = review_uri (S i)) ∧
  (Forall reaches_review rows1 → Forall reaches_review rows2 →
   review_count r2 = length rows1 `max` length rows2) ∧
  (∀ i row1 row2 f1 f2,
     rows1 !! i = Some row1 → rows2 !! i = Some row2 →
     reaches_review row1 → reaches_review row2 →
     row1 !! "fonte" = Some f1 → row2 !! "fonte" = Some f2 →
     (review_uri (S i), SW "fonte", Lit f1) ∈ graph r2 ∧
     (review_uri (S i), SW "fonte", Lit f2) ∈ graph r2).
Proof.
  unfold run. generalize initialised_init. generalize __init__.
  intros self0 Hinit. cbv zeta.
  set (r1 := (process_csv strptime now rows1 self0).1).
  assert (Htyped : ∀ s,
    (s, RDF "type", SW "Review") ∈ graph (process_csv strptime now' rows2 r1).1 ↔
    ∃ i row, (rows1 !! i = Some row ∨ rows2 !! i = Some row) ∧
             reaches_review row ∧ s = review_uri (S i)).
  { intros s. rewrite elem_of_graph. unfold r1 at 1.
    rewrite (review_typed strptime now self0 Hinit). split.
    - intros [(i & row & Hi & Hr & ->)|(i & row & Hi & Hd)].
      + exists i, row. auto.
      + apply review_type_delta in Hd as [Hr ->]. exists i, row. auto.
    - intros (i & row & [Hi|Hi] & Hr & ->).
      + left. by exists i, row.
      + right. exists i, row. split; [done|]. by apply review_type_delta. }
  split; [done|]. split.
  - intros Hall1 Hall2. unfold review_count.
    rewrite (length_subjects _ _ _
      ((λ i, review_uri (S i)) <$> seq 0 (length rows1 `max` length rows2))).
    + by rewrite length_fmap, length_seq.
    + apply NoDup_fmap_2; [|apply NoDup_seq].
      intros a b Heq%review_uri_inj. by injection Heq.
    + intros s. rewrite Htyped, list_elem_of_fmap. split.
      * intros (i & -> & Hi%elem_of_seq).
        destruct (decide (i < length rows1)%nat) as [Hlt|Hge].
        -- destruct (lookup_lt_is_Some_2 rows1 i Hlt) as [row Hrow].
           exists i, row. split; [by left|]. split; [|done].
           by apply (proj1 (Forall_forall _ _) Hall1), list_elem_of_lookup_2 with i.
        -- destruct (lookup_lt_is_Some_2 rows2 i) as [row Hrow]; [lia|].
           exists i, row. split; [by right|]. split; [|done].
           by apply (proj1 (Forall_forall _ _) Hall2), list_elem_of_lookup_2 with i.
      * intros (i & row & Hi & _ & ->). exists i. split; [done|].
        apply elem_of_seq. destruct Hi as [Hi|Hi]; apply lookup_lt_Some in Hi; lia.
  - intros i row1 row2 f1 f2 Hi1 Hi2 Hr1 Hr2 Hf1 Hf2. split.
    + apply elem_of_graph. left. unfold r1.
      eapply row_delta_in_graph; [exact Hi1|]. by apply fonte_delta.
    + eapply row_delta_in_graph; [exact Hi2|]. by apply fonte_delta.
Qed.

(** ** What a skipped row leaves behind *)

(** X18. A row skipped for a missing column keeps what it wrote before
    that column was read: the skip is reported with the row number and the
    column; if the row has [software_id], its software is typed and carries
    the id; if it has the reviewer columns too, its tuple is cached and its
    reviewer typed; if it has [data_avaliacao] too, its review is typed; and
    that review has no [hasReview] and no [madeBy] link. *)
Theorem skipped_row_keeps_its_entities (strptime : string → option date)
    (now : nat → date) (rows : list Row) (i : nat) (row : Row) (k : string) :
  rows !! i = Some row →
  first_missing row = Some k →
  let r := run strptime now rows in
  MissingColumn (S i) (KeyError k) ∈ r.2 ∧
  (∀ id, row !! "software_id" = Some id →
     (software_uri id, RDF "type", SW "Software") ∈ graph r.1 ∧
     (software_uri id, SW "software_id", Lit id) ∈ graph r.1) ∧
  (∀ key, resolved_key row = Some key →
     ∃ u, reviewer_cache r.1 !! key = Some u ∧
          (u, RDF "type", SW "Reviewer") ∈ graph r.1) ∧
  (reaches_review row →
     (review_uri (S i), RDF "type", SW "Review") ∈ graph r.1) ∧
  (∀ a, ((a, SW "hasReview", review_uri (S i)) ∉ graph r.1) ∧
        ((review_uri (S i), SW "madeBy", a) ∉ graph r.1)).
Proof.
  intros Hi Hk. unfold run. generalize initialised_init. generalize __init__.
  intros self0 Hinit. cbv zeta.
  assert (Hnot : ¬ complete row).
  { intros Hc%first_missing_None. congruence. }
  split; [|split; [|split; [|split]]].
  - apply elem_of_out. exists i, row. split; [done|].
    unfold row_result. rewrite Hk. by left.
  - intros id Hid.
    pose proof (row_software_typed strptime now self0 Hinit rows i row id Hi Hid).
    split; [done|]. by apply software_id_written.
  - intros key Hkey. unfold resolved_key in Hkey.
    destruct (row !! "software_id") as [id|] eqn:Hid; [|done].
    eexists. split; [by eapply cache_row_lookup|].
    by eapply resolved_reviewer_typed.
  - intros Hr. apply review_typed; [done|]. by exists i, row.
  - intros a. split.
    + intros (i' & row' & id & Hi' & Hc & _ & _ & <-%review_uri_inj%(inj S))
               %hasReview_elem; [|done]. congruence.
    + intros (i' & row' & key & Hi' & Hc & _ & <-%review_uri_inj%(inj S) & _)
               %madeBy_elem; [|done]. congruence.
Qed.

(** ** Files read under one header *)




(** ** The classes and the object properties of the schema *)

Lemma schema_declarations :
  Forall (λ t, predicate t = RDF "type" →
               (object t = OWL "Class" → subject t ∈ classes) ∧
               (object t = OWL "ObjectProperty" →
                subject t ∈ obj_properties.*1.*1)) schema_triples ∧
  Forall (λ c, (c, RDF "type", OWL "Class") ∈ schema_triples) classes ∧
  Forall (λ d : Triple,
    (d.1.1, RDF "type", OWL "ObjectProperty") ∈ schema_triples ∧
    (d.1.1, RDFS "domain", d.1.2) ∈ schema_triples ∧
    (d.1.1, RDFS "range", d.2) ∈ schema_triples ∧
    d.1.2 ∈ classes ∧ d.2 ∈ classes ∧
    Forall (λ t, subject t = d.1.1 →
              (predicate t = RDFS "domain" → object t = d.1.2) ∧
              (predicate t = RDFS "range" → object t = d.2)) schema_triples)
    obj_properties.
Proof. repeat split; apply (bool_decide_unpack _); vm_compute; exact I. Qed.

(** A declared object property has the domain and the range of the list,
    and no other. *)
Lemma object_property_domain_range (p d r : Node) :
  (p, d, r) ∈ obj_properties →
  (∀ x, (p, RDFS "domain", x) ∈ graph __init__ ↔ x = d) ∧
  (∀ x, (p, RDFS "range", x) ∈ graph __init__ ↔ x = r) ∧
  (d, RDF "type", OWL "Class") ∈ graph __init__ ∧
  (r, RDF "type", OWL "Class") ∈ graph __init__.
Proof.
  destruct schema_declarations as (_ & Hcls & Hobj).
  rewrite graph_init. intros Hp.
  apply (proj1 (Forall_forall _ _) Hobj) in Hp
    as (_ & Hd & Hr & Hdc & Hrc & Hall). cbn [fst snd] in *.
  split; [|split; [|split]].
  - intros x. rewrite elem_of_list_to_set. split; [|by intros ->].
    intros Hx.
    destruct (proj1 (Forall_forall _ _) Hall _ Hx eq_refl) as [Hdom _].
    exact (Hdom eq_refl).
  - intros x. rewrite elem_of_list_to_set. split; [|by intros ->].
    intros Hx.
    destruct (proj1 (Forall_forall _ _) Hall _ Hx eq_refl) as [_ Hran].
    exact (Hran eq_refl).
  - rewrite elem_of_list_to_set.
    exact (proj1 (Forall_forall _ _) Hcls _ Hdc).
  - rewrite elem_of_list_to_set.
    exact (proj1 (Forall_forall _ _) Hcls _ Hrc).
Qed.

(** X20. The constructor writes 54 triples.  The subjects declared
    [owl:Class] are [Software], [Review] and [Reviewer]; those declared
    [owl:ObjectProperty] are [hasReview] and [madeBy]; and each of the two has
    one domain and one range: [hasReview] from [Software] to [Review],
    [madeBy] from [Review] to [Reviewer]. *)
Theorem classes_and_object_properties :
  size (graph __init__) = 54 ∧
  (∀ c, (c, RDF "type", OWL "Class") ∈ graph __init__ ↔
        c ∈ [SW "Software"; SW "Review"; SW "Reviewer"]) ∧
  (∀ p, (p, RDF "type", OWL "ObjectProperty") ∈ graph __init__ ↔
        p ∈ [SW "hasReview"; SW "madeBy"]) ∧
  (∀ x, (SW "hasReview", RDFS "domain", x) ∈ graph __init__ ↔ x = SW "Software") ∧
  (∀ x, (SW "hasReview", RDFS "range", x) ∈ graph __init__ ↔ x = SW "Review") ∧
  (∀ x, (SW "madeBy", RDFS "domain", x) ∈ graph __init__ ↔ x = SW "Review") ∧
  (∀ x, (SW "madeBy", RDFS "range", x) ∈ graph __init__ ↔ x = SW "Reviewer").
Proof.
  destruct schema_declarations as (Hsubj & Hcls & Hobj).
  destruct (object_property_domain_range (SW "hasReview") (SW "Software")
              (SW "Review")) as (Hhd & Hhr & _);
    [apply (bool_decide_unpack _); vm_compute; exact I|].
  destruct (object_property_domain_range (SW "madeBy") (SW "Review")
              (SW "Reviewer")) as (Hmd & Hmr & _);
    [apply (bool_decide_unpack _); vm_compute; exact I|].
  split; [|split; [|split; [|split; [|split; [|split]]]]]; try assumption.
  - rewrite graph_init, size_list_to_set by apply NoDup_schema_triples.
    reflexivity.
  - intros c. rewrite graph_init, elem_of_list_to_set. split.
    + intros Ht.
      destruct (proj1 (Forall_forall _ _) Hsubj _ Ht eq_refl) as [Hc _].
      exact (Hc eq_refl).
    + intros Hc. exact (proj1 (Forall_forall _ _) Hcls _ Hc).
  - intros p. rewrite graph_init, elem_of_list_to_set. split.
    + intros Ht.
      destruct (proj1 (Forall_forall _ _) Hsubj _ Ht eq_refl) as [_ Hp].
      exact (Hp eq_refl).
    + intros Hp.
      change [SW "hasReview"; SW "madeBy"] with obj_properties.*1.*1 in Hp.
      apply list_elem_of_fmap in Hp as ([p' d] & -> & Hp).
      apply list_elem_of_fmap in Hp as ([pd r] & Heq & Hp). cbn in Heq. subst pd.
      by apply (proj1 (Forall_forall _ _) Hobj) in Hp as [? _].
Qed.

(** ** The size of the graph *)

Lemma size_union_le (X Y : gset Triple) (a b : nat) :
  (size X ≤ a)%nat → (size Y ≤ b)%nat → (size (X ∪ Y) ≤ a + b)%nat.
Proof.
  intros Ha Hb. rewrite size_union_alt.
  assert (size (Y ∖ X) ≤ size Y)%nat
    by apply subseteq_size, subseteq_difference_l, reflexivity.
  lia.
Qed.

(** Bound the size of a union of singletons by the number of its parts. *)
Ltac size_bound :=
  lazymatch goal with
  | |- (size (_ ∪ _) ≤ _)%nat => apply size_union_le; size_bound
  | |- (size {[ _ ]} ≤ _)%nat => rewrite size_singleton; apply Nat.le_refl
  | |- (size ∅ ≤ _)%nat => rewrite size_empty; apply Nat.le_refl
  | |- _ => eassumption
  end.

Lemma size_software_delta (g : gset Triple) (id name : string)
    (pagina : option string) :
  (size (software_delta g id name pagina) ≤ 4)%nat.
Proof.
  unfold software_delta, software_triples.
  destruct (decide _); [rewrite size_empty; lia|].
  destruct (truthy pagina); (etrans; [size_bound|]); cbn; lia.
Qed.

Lemma size_reviewer_delta (cache : gmap ReviewerKey Node) (key : ReviewerKey) :
  (size (reviewer_delta cache key) ≤ 5)%nat.
Proof.
  unfold reviewer_delta, reviewer_triples.
  destruct (cache !! key); [rewrite size_empty; lia|].
  etrans; [size_bound|]. cbn. lia.
Qed.

Lemma size_optional_triple (review : Node) (row : Row) (column : string) :
  (size (optional_triple review row column) ≤ 1)%nat.
Proof.
  unfold optional_triple. destruct (row !! column) as [v|];
    [destruct (negb (String.eqb v ""))|];
    rewrite ?size_singleton, ?size_empty; lia.
Qed.

Lemma size_review_delta (strptime : string → option date) (now : nat → date)
    (n : nat) (row : Row) (sw rv : Node) (s : string) :
  (size (review_delta strptime now n row sw rv s) ≤ 11)%nat.
Proof.
  pose proof (size_optional_triple (review_uri n) row "sft_anterior") as Hsft.
  pose proof (size_optional_triple (review_uri n) row "motivo_mudanca") as Hmot.
  unfold review_delta. cbv zeta.
  destruct (row !! "fonte"); [|etrans; [size_bound|]; cbn; lia].
  destruct (row !! "recomendacao"); [|etrans; [size_bound|]; cbn; lia].
  destruct (row !! "comentario"); [|etrans; [size_bound|]; cbn; lia].
  destruct (row !! "vantagem"); [|etrans; [size_bound|]; cbn; lia].
  destruct (row !! "desvantagem"); (etrans; [size_bound|]); cbn; lia.
Qed.

Lemma size_row_delta (strptime : string → option date) (now : nat → date)
    (self : Populator) (n : nat) (row : Row) :
  (size (row_delta strptime now self n row) ≤ 20)%nat.
Proof.
  unfold row_delta.
  destruct (row !! "software_id") as [id|]; [|rewrite size_empty; lia].
  pose proof (size_software_delta (graph self) id (name_of row id)
                (row !! "pagina")) as Hsw.
  destruct (reviewer_key row) as [key|];
    [|etrans; [size_bound|]; lia].
  pose proof (size_reviewer_delta (reviewer_cache self) key) as Hrv.
  destruct (row !! "data_avaliacao") as [s|];
    [|etrans; [size_bound|]; lia].
  pose proof (size_review_delta strptime now n row (software_uri id)
                (reviewer_of (reviewer_cache self) key) s) as Hrev.
  etrans; [size_bound|]. lia.
Qed.

(** X21. A row adds at most twenty triples (four for its software, five
    for its reviewer, eleven for its review): on any populator, the graph
    after [process_csv] has at most twenty triples per row more than before,
    and the graph of a run at most 54 plus twenty per row. *)
Theorem graph_grows_by_twenty_per_row (strptime : string → option date)
    (now : nat → date) (rows : list Row) (self : Populator) :
  (size (graph (process_csv strptime now rows self).1)
   ≤ size (graph self) + 20 * length rows)%nat ∧
  (size (graph (run strptime now rows).1) ≤ 54 + 20 * length rows)%nat.
Proof.
  assert (Hany : ∀ self0,
    (size (graph (process_csv strptime now rows self0).1)
     ≤ size (graph self0) + 20 * length rows)%nat).
  { intros self0. induction rows as [|r rows IH] using rev_ind.
    - unfold process_csv. cbn [process_rows fst length]. lia.
    - rewrite graph_snoc, length_app. cbn [length].
      pose proof (size_row_delta strptime now
                    (process_csv strptime now rows self0).1
                    (S (length rows)) r) as Hrow.
      etrans; [apply size_union_le; [exact IH|exact Hrow]|]. lia. }
  split; [apply Hany|]. unfold run. etrans; [apply Hany|].
  rewrite graph_init, size_list_to_set by apply NoDup_schema_triples.
  change (length schema_triples) with 54. lia.
Qed.

(** * The further properties at concrete inputs *)

Lemma reaches_review_review_row : reaches_review review_row.
Proof. apply complete_reaches_review, complete_review_row. Defined.

(** X4 at a file of two reviewers: the second is [reviewer_2]. *)
Lemma reviewer_numbered_by_first_appearance_witness :
  reviewer_cache (run strptime_ymd example_now [review_row; other_sector_row]).1
    !! ("industria", "medio", "diaria", "semanal") = Some (reviewer_uri 2).
Proof.
  destruct (reviewer_numbered_by_first_appearance strptime_ymd example_now
              [review_row; other_sector_row] 1 other_sector_row
              ("industria", "medio", "diaria", "semanal")) as (Hcache & _).
  - reflexivity.
  - vm_compute. reflexivity.
  - unfold reviewer_keys. rewrite elem_of_list_to_set.
    apply (bool_decide_eq_false_1 _). vm_compute. reflexivity.
  - assert (Hkeys : omap resolved_key (take 1 [review_row; other_sector_row])
                    = [("varejo", "medio", "diaria", "semanal")])
      by (vm_compute; reflexivity).
    unfold reviewer_keys in Hcache. rewrite Hkeys in Hcache.
    cbn [list_to_set] in Hcache.
    rewrite (right_id_L ∅ (∪)), size_singleton in Hcache. exact Hcache.
Defined.

(** X11 at the source of the review of a one-row file. *)
Lemma data_conforms_to_schema_witness :
  let g := graph (run strptime_ymd example_now [review_row]).1 in
  let t := (review_uri 1, SW "fonte", Lit "capterra") in
  t ∈ graph __init__ ∨ conforms g t.
Proof.
  apply data_conforms_to_schema. unfold run.
  apply (row_delta_in_graph strptime_ymd example_now __init__ [review_row] 0
           review_row); [reflexivity|].
  apply fonte_delta; [apply reaches_review_review_row|].
  vm_compute. reflexivity.
Defined.

(** X12 at a file of two rows about software 7: it has no second name. *)
Lemma attributes_single_valued_witness :
  (software_uri "7", SW "name", Lit "Argos")
    ∉ graph (run strptime_ymd example_now [review_row; renamed_row]).1.
Proof.
  assert (Hname : (software_uri "7", SW "name", Lit "Argus")
            ∈ graph (run strptime_ymd example_now [review_row; renamed_row]).1).
  { unfold run.
    apply (proj2 (software_name_elem strptime_ymd example_now __init__
                    initialised_init [review_row; renamed_row]
                    (software_uri "7") (Lit "Argus"))).
    exists 0, review_row, "7". split; [reflexivity|].
    split; [vm_compute; reflexivity|]. split; [|split; [reflexivity|]].
    - apply (software_new_before strptime_ymd example_now __init__
               initialised_init []).
      intros r Hr. apply elem_of_nil in Hr. destruct Hr.
    - vm_compute. reflexivity. }
  assert (Hp : SW "name" ∈ dt_properties.*1.*1) by in_schema_list.
  intros Hin.
  pose proof (attributes_single_valued strptime_ymd example_now
                [review_row; renamed_row] (software_uri "7") (SW "name")
                (Lit "Argus") (Lit "Argos") Hp Hname Hin) as Heq.
  discriminate Heq.
Defined.

(** X15 at a one-row file: the review belongs to software 7. *)
Lemma review_linked_to_its_row_witness :
  (software_uri "7", SW "hasReview", review_uri 1)
    ∈ graph (run strptime_ymd example_now [review_row]).1.
Proof.
  destruct (review_linked_to_its_row strptime_ymd example_now [review_row] 0
              review_row "7" ("varejo", "medio", "diaria", "semanal"))
    as (Hhas & _).
  - reflexivity.
  - apply complete_review_row.
  - vm_compute. reflexivity.
  - vm_compute. reflexivity.
  - by apply Hhas.
Defined.

(** X16 at a file of two rows, read again on another day. *)
Lemma reingestion_changes_nothing_witness :
  process_csv strptime_ymd (λ _, Date 1999 12 31) [review_row; renamed_row]
    (run strptime_ymd example_now [review_row; renamed_row]).1
  = run strptime_ymd example_now [review_row; renamed_row].
Proof.
  apply reingestion_changes_nothing.
  intros row s Hrow Hs.
  apply elem_of_cons in Hrow as [->|Hrow];
    [|apply elem_of_cons in Hrow as [->|Hrow]; [|by apply elem_of_nil in Hrow]].
  - vm_compute in Hs. injection Hs as <-. vm_compute. eauto.
  - vm_compute in Hs. injection Hs as <-. vm_compute. eauto.
Defined.

(** X18 at a row without [fonte]: it is reported, and its software stays. *)
Lemma skipped_row_keeps_its_entities_witness :
  let r := run strptime_ymd example_now [row_without_fonte] in
  MissingColumn 1 (KeyError "fonte") ∈ r.2 ∧
  (software_uri "7", RDF "type", SW "Software") ∈ graph r.1.
Proof.
  destruct (skipped_row_keeps_its_entities strptime_ymd example_now
              [row_without_fonte] 0 row_without_fonte "fonte")
    as (Hline & Hsw & _).
  - reflexivity.
  - vm_compute. reflexivity.
  - split; [exact Hline|].
    assert (Hid : row_without_fonte !! "software_id" = Some "7")
      by (vm_compute; reflexivity).
    exact (proj1 (Hsw "7" Hid)).
Defined.

